(** * OpenLiveStacker: message queue, camera driver registry, frame dispatch

A shallow embedding of

  - [include/sync_queue.h]      (module [Queue]),
  - [src/camera.cpp]            (module [Camera]),
  - [src/video_generator.cpp]   (module [Video]),

followed by the properties the specification states about them. *)

From Stdlib Require Import ZArith String Ascii List Bool Lia.
From Stdlib Require Import DecimalString.
Import ListNotations.

Set Implicit Arguments.

(* ================================================================= *)
(** * [include/sync_queue.h] *)
(* ================================================================= *)

Module Queue.

Section SyncQueue.

Variable T : Type.

(** [template<typename T> class sync_queue].  The class declares one
    container, [std::queue<T> data_], and [push] appends to it under
    [lock_].  [pop] is not embedded: after waiting while
    [data_.empty()] its body takes [front()] and [pop_front()] of
    [queue_], a name the class declares nowhere, so the header gives
    [pop] no meaning to translate.

    The record is also what stands for the queues
    ([queue_pointer_type]) the stages of the pipeline are connected
    with. *)
Record sync_queue : Type := Build { data_ : list T }.

Definition empty : sync_queue := Build [].

(** [void push(T const &v)]: [data_.push_back(v)], an append at the
    tail. *)
Definition push (v : T) (q : sync_queue) : sync_queue :=
  Build (data_ q ++ [v]).

End SyncQueue.

Arguments empty {T}.

End Queue.


(* ================================================================= *)
(** * [src/camera.cpp] *)
(* ================================================================= *)

Module Camera.

Local Open Scope string_scope.

(** A call that returns a value or throws; [Throw] carries [what()] of
    the [CamError] (a [std::runtime_error]). *)
Inductive result (A : Type) : Type :=
| Ok (a : A)
| Throw (what : string).

Arguments Throw {A} what.

(** Decimal text of an integer, as [std::to_string] and [operator<<]
    print it. *)
Definition to_string (z : Z) : string :=
  NilEmpty.string_of_int (Z.to_int z).

(** ** The tags

    [camera.h] is not among the sources at hand; the enumerators are the
    ones [camera.cpp] and [video_generator.cpp] name. *)

Inductive CamStreamType : Type :=
| stream_yuv2
| stream_mjpeg
| stream_rgb24
| stream_rgb48
| stream_raw8
| stream_raw16
| stream_mono8
| stream_mono16
| stream_error.

Inductive CamBayerType : Type :=
| bayer_na
| bayer_rg
| bayer_gr
| bayer_bg
| bayer_gb.

(** [CamOptionType] is read by the code through its numeric value only
    ([unsigned id = type], [static_cast<CamOptionType>(i)]), and is
    kept as that value.  Its six tags are the indices of
    [cam_option_type_names]. *)
Definition CamOptionType : Type := N.

(** ** Bayer pattern names *)

Definition bayer_type_to_str (bayer : CamBayerType) : result string :=
  match bayer with
  | bayer_na => Ok "NA"
  | bayer_rg => Ok "RGGB"
  | bayer_gr => Ok "GRBG"
  | bayer_bg => Ok "BGGR"
  | bayer_gb => Ok "GBRG"
  end.

Definition bayer_type_from_str (bayer : string) : result CamBayerType :=
  if bayer =? "NA" then Ok bayer_na
  else if bayer =? "RGGB" then Ok bayer_rg
  else if bayer =? "GRBG" then Ok bayer_gr
  else if bayer =? "BGGR" then Ok bayer_bg
  else if bayer =? "GBRG" then Ok bayer_gb
  else Throw ("Invalid bayer format " ++ bayer).

(** ** Stream format names *)

Definition stream_type_to_str (s : CamStreamType) : result string :=
  match s with
  | stream_yuv2 => Ok "yuv2"
  | stream_rgb24 => Ok "rgb24"
  | stream_rgb48 => Ok "rgb48"
  | stream_raw8 => Ok "raw8"
  | stream_raw16 => Ok "raw16"
  | stream_mono8 => Ok "mono8"
  | stream_mono16 => Ok "mono16"
  | stream_mjpeg => Ok "mjpeg"
  | _ => Throw "Invalid Stream type"
  end.

Definition stream_type_from_str (s : string) : result CamStreamType :=
  if s =? "mjpeg" then Ok stream_mjpeg
  else if s =? "yuv2" then Ok stream_yuv2
  else if s =? "rgb24" then Ok stream_rgb24
  else if s =? "rgb48" then Ok stream_rgb48
  else if s =? "raw8" then Ok stream_raw8
  else if s =? "raw16" then Ok stream_raw16
  else if s =? "mono8" then Ok stream_mono8
  else if s =? "mono16" then Ok stream_mono16
  else Throw ("Invalid stream type " ++ s).

(** ** Option value type names *)

Definition cam_option_type_names : list string :=
  ["bool"; "number"; "msec"; "percent"; "kelvin"; "celsius"].

Definition cam_option_type_to_str (type : CamOptionType) : result string :=
  let id := type in
  match nth_error cam_option_type_names (N.to_nat id) with
  | None => Throw "Invalid type"
  | Some s => Ok s
  end.

(** The [for] loop of [cam_option_type_from_str], from index [i] on. *)
Fixpoint cam_option_type_scan (names : list string) (i : N) (name : string)
  : option CamOptionType :=
  match names with
  | [] => None
  | n :: names' =>
      if n =? name then Some i
      else cam_option_type_scan names' (N.succ i) name
  end.

Definition cam_option_type_from_str (name : string) : result CamOptionType :=
  match cam_option_type_scan cam_option_type_names 0 name with
  | Some i => Ok i
  | None => Throw ("Invalid type:" ++ name)
  end.

(** The tags and the encodings the specification lists. *)
Definition stream_types : list CamStreamType :=
  [stream_yuv2; stream_mjpeg; stream_rgb24; stream_rgb48; stream_raw8;
   stream_raw16; stream_mono8; stream_mono16; stream_error].

Definition stream_type_names : list string :=
  ["yuv2"; "mjpeg"; "rgb24"; "rgb48"; "raw8"; "raw16"; "mono8"; "mono16"].

Definition bayer_type_names : list string :=
  ["NA"; "RGGB"; "GRBG"; "BGGR"; "GBRG"].

Definition cam_option_types : list CamOptionType :=
  [0; 1; 2; 3; 4; 5]%N.

(** ** Option identifiers

    [CamOptionId] is read through its numeric value ([size_t nid = id],
    [static_cast<CamOptionId>(i)]) and is kept as that value. *)
Definition CamOptionId : Type := N.

Definition option_string_ids : list string :=
  ["auto_exp"; "auto_wb"; "exp"; "wb"; "wb_r"; "wb_b"; "gain"; "gamma";
   "brightness"; "contrast"; "temperature"; "cooler_target"; "cooler_on";
   "fan_on"; "cooler_power"; "live_stretch"].

Definition option_names : list string :=
  ["Auto Exp."; "Auto WB"; "Exp."; "WB"; "WB Red"; "WB Blue"; "Gain";
   "Gamma"; "Bright."; "Contr."; "Temp."; "Cooler Tgt."; "Cooler"; "Fan";
   "Cooler Pwr."; "Auto Str."].

Definition cam_option_id_to_string_id (id : CamOptionId) : result string :=
  let nid := id in
  match nth_error option_string_ids (N.to_nat nid) with
  | None => Throw "Invalid option id"
  | Some s => Ok s
  end.

Definition cam_option_id_to_name (id : CamOptionId) : result string :=
  let nid := id in
  match nth_error option_names (N.to_nat nid) with
  | None => Throw "Invalid option id"
  | Some s => Ok s
  end.

(** The [for] loop of [cam_option_id_from_string_id], from index [i]
    on. *)
Fixpoint cam_option_id_scan (ids : list string) (i : N) (name : string)
  : option CamOptionId :=
  match ids with
  | [] => None
  | n :: ids' =>
      if name =? n then Some i
      else cam_option_id_scan ids' (N.succ i) name
  end.

Definition cam_option_id_from_string_id (name : string) : result CamOptionId :=
  match cam_option_id_scan option_string_ids 0 name with
  | Some i => Ok i
  | None => Throw "Invalid option id"
  end.

(** ** The driver registry *)

(** What [load_driver] and [get] take from outside the program: the
    dynamic linker ([dlopen] and [dlsym] return a null pointer as
    [None]), the two [reinterpret_cast]s of a resolved symbol, and the
    driver objects a factory returns (a null [CameraDriver *] is
    [None]). *)
Class Linker : Type := {
  handle : Type;
  symbol : Type;
  CameraDriver : Type;
  dlopen : string -> option handle;
  dlsym : handle -> string -> option symbol;
  as_generator : symbol -> Z -> option CameraDriver;
  as_config : symbol -> string -> Z
}.

(** What a call did to the dynamic linker, in order. *)
Inductive dl_call `{Linker} : Type :=
| call_dlopen (path : string)
| call_dlsym (h : handle) (name : string)
| call_dlclose (h : handle)
| call_config (f : symbol) (opt : string).

Section Registry.

Context `{Linker}.

Definition cam_generator_ptr_type : Type := Z -> option CameraDriver.

(** The two file-level vectors [driver_names] and [driver_calls]. *)
Record registry : Type := mk_registry {
  driver_names : list string;
  driver_calls : list cam_generator_ptr_type
}.

(** Both vectors are empty when the program starts. *)
Definition no_drivers : registry := mk_registry [] [].

(** The result of [load_driver]: normal return or exception, the two
    vectors afterwards, and the calls made to the dynamic linker. *)
Record loaded : Type := mk_loaded {
  load_result : result unit;
  load_registry : registry;
  load_calls : list dl_call
}.

Definition driver_path (name base_path : string) : string :=
  let base_path :=
    if base_path =? "" then base_path else base_path ++ "/" in
  base_path ++ "libols_driver_" ++ name ++ ".so".

Definition load_driver (name base_path : string) (opt : option string)
  (r : registry) : loaded :=
  if existsb (String.eqb name) (driver_names r) then mk_loaded (Ok tt) r []
  else
    let path := driver_path name base_path in
    match dlopen path with
    | None => mk_loaded (Throw ("Failed to load driver " ++ name)) r
                [call_dlopen path]
    | Some h =>
        let get_name := "ols_get_" ++ name ++ "_driver" in
        match dlsym h get_name with
        | None =>
            mk_loaded (Throw ("Failed to find driver entry for " ++ name)) r
              [call_dlopen path; call_dlsym h get_name; call_dlclose h]
        | Some func =>
            let inserted :=
              mk_registry (name :: driver_names r)
                          (as_generator func :: driver_calls r) in
            match opt with
            | None =>
                mk_loaded (Ok tt) inserted
                  [call_dlopen path; call_dlsym h get_name]
            | Some o =>
                let set_name := "ols_set_" ++ name ++ "_driver_config" in
                match dlsym h set_name with
                | None =>
                    mk_loaded
                      (Throw ("Failed to find driver config entry for "
                              ++ name)) r
                      [call_dlopen path; call_dlsym h get_name;
                       call_dlsym h set_name; call_dlclose h]
                | Some opt_func =>
                    let calls :=
                      [call_dlopen path; call_dlsym h get_name;
                       call_dlsym h set_name; call_config opt_func o] in
                    if (as_config opt_func o =? 0)%Z
                    then mk_loaded (Ok tt) inserted calls
                    else mk_loaded
                           (Throw ("Failed to config driver for " ++ name))
                           r calls
                end
            end
        end
    end.

Definition drivers (r : registry) : list string := driver_names r.

(** [(unsigned)id]: the value of an [int] taken modulo [2^32]. *)
Definition to_unsigned (id : Z) : Z := id mod 2 ^ 32.

(** [get]: [driver_calls.at(id)] cannot miss once the range test has
    passed for a vector shorter than [2^31]; its [std::out_of_range] is
    kept for the other case. *)
Definition get (id external_option : Z) (r : registry)
  : result CameraDriver :=
  if (to_unsigned id >=? Z.of_nat (List.length (driver_calls r)))%Z
  then Throw "Invalid driver id"
  else
    match nth_error (driver_calls r) (Z.to_nat id) with
    | None => Throw "vector::at"
    | Some factory =>
        match factory external_option with
        | None => Throw ("Failed to load camera " ++ to_string id)
        | Some d => Ok d
        end
    end.

(** ** Vocabulary of the properties *)

(** One call of [load_driver] as a caller makes it. *)
Record load_request : Type := mk_request {
  req_name : string;
  req_base_path : string;
  req_opt : option string
}.

(** A sequence of calls of [load_driver]; a call that throws leaves
    the vectors to the next one as it found them. *)
Fixpoint load_all (reqs : list load_request) (r : registry) : registry :=
  match reqs with
  | [] => r
  | q :: reqs' =>
      load_all reqs'
        (load_registry
           (load_driver (req_name q) (req_base_path q) (req_opt q) r))
  end.

(** [call] is the factory that some library named after [name]
    exports. *)
Definition factory_of (name : string) (call : cam_generator_ptr_type)
  : Prop :=
  exists (base_path : string) (h : handle) (f : symbol),
    dlopen (driver_path name base_path) = Some h
    /\ dlsym h ("ols_get_" ++ name ++ "_driver") = Some f
    /\ call = as_generator f.

(** The two vectors run in parallel: same length, and the factory at
    an index is the one of the name at that index. *)
Definition aligned (r : registry) : Prop :=
  Forall2 factory_of (driver_names r) (driver_calls r).

End Registry.

End Camera.


(* ================================================================= *)
(** * [src/video_generator.cpp] *)
(* ================================================================= *)

Module Video.

Import Camera.

Local Open Scope string_scope.
Local Open Scope Z_scope.

(** OpenCV element types and colour conversion codes the stage uses. *)
Inductive mat_type : Type := CV_8UC1 | CV_8UC2 | CV_8UC3 | CV_16UC1 | CV_16UC3.

Inductive color_code : Type :=
| COLOR_YUV2BGR_YUYV
| COLOR_BayerBG2BGR
| COLOR_BayerGB2BGR
| COLOR_BayerRG2BGR
| COLOR_BayerGR2BGR.

(** What the stage uses and does not define: OpenCV's matrices with the
    calls made on them, and the fields of a [StackerControl] the stage
    never reads.  [Mat_new] is a default-constructed [cv::Mat],
    [Mat_of rows cols type data] a matrix over a buffer.  [imdecode] is
    the only call made inside a [try] block; [None] stands for the
    exception caught there.  The other calls are taken to return. *)
Class Externals : Type := {
  Mat : Type;
  Mat_new : Mat;
  Mat_of : Z -> Z -> mat_type -> list Byte.byte -> Mat;
  cvtColor : Mat -> color_code -> Mat;
  imdecode : Mat -> option Mat;
  imencode : Mat -> list Byte.byte;
  convertTo : Mat -> mat_type -> Z -> Mat;
  elemSize1 : Mat -> Z;
  channels : Mat -> Z;
  clone : Mat -> Mat;
  session_settings : Type
}.

Section Stage.

Context `{Externals}.

(** ** Messages *)

(** [CamStreamFormat]: the stage reads the tag and the two dimensions;
    [framerate] and [bin] are left out. *)
Record CamStreamFormat : Type := mk_format {
  format : CamStreamType;
  width : Z;
  height : Z
}.

(** [CameraFrame].  [source_frame] and [jpeg_frame] are shared byte
    buffers; a null [jpeg_frame] is [None].  The stage fills the frame
    in before the first [push] of it and does not touch it afterwards,
    so every queue it is pushed to holds the same value. *)
Record CameraFrame : Type := mk_frame {
  frame_format : CamStreamFormat;
  bayer : CamBayerType;
  source_frame : list Byte.byte;
  frame_dr : Z;
  frame : Mat;
  raw : Mat;
  jpeg_frame : option (list Byte.byte)
}.

Inductive ctl_op : Type :=
| ctl_init
| ctl_pause
| ctl_resume
| ctl_save
| ctl_cancel
| ctl_update.

Record StackerControl : Type := mk_control {
  op : ctl_op;
  save_inputs : bool;
  settings : session_settings
}.

(** What a [std::shared_ptr<QueueData>] can point to, as [run] tells
    the cases apart with [dynamic_pointer_cast]: [other_data] is every
    pointer for which the three casts give null. *)
Inductive QueueData : Type :=
| shutdown_data
| frame_data (f : CameraFrame)
| control_data (c : StackerControl)
| other_data.

Definition queue_type : Type := Queue.sync_queue QueueData.

(** ** The stage

    The five queue pointers and the three flags of [VideoGenerator];
    [plate_solving_out_] may be null ([None]), the other four are
    dereferenced without a test.  [stacker_log] is what
    [BOOSTER_ERROR("stacker")] has written, oldest first. *)
Record VideoGenerator : Type := mk_generator {
  data_queue_ : queue_type;
  stack_out_ : queue_type;
  live_out_ : queue_type;
  debug_out_ : queue_type;
  plate_solving_out_ : option queue_type;
  stacking_active_ : bool;
  stacking_in_process_ : bool;
  debug_active_ : bool;
  stacker_log : list string
}.

(** The constructor, with the member initialisers of the three flags. *)
Definition new_VideoGenerator
  (queue stacking_output live_output debug : queue_type)
  (plate_solving_output : option queue_type) : VideoGenerator :=
  mk_generator queue stacking_output live_output debug plate_solving_output
    false false false [].

Definition BOOSTER_ERROR (msg : string) (this : VideoGenerator)
  : VideoGenerator :=
  mk_generator (data_queue_ this) (stack_out_ this) (live_out_ this)
    (debug_out_ this) (plate_solving_out_ this) (stacking_active_ this)
    (stacking_in_process_ this) (debug_active_ this)
    (stacker_log this ++ [msg])%list.

Definition set_data_queue (q : queue_type) (this : VideoGenerator)
  : VideoGenerator :=
  mk_generator q (stack_out_ this) (live_out_ this)
    (debug_out_ this) (plate_solving_out_ this) (stacking_active_ this)
    (stacking_in_process_ this) (debug_active_ this) (stacker_log this).

Definition push_stack (v : QueueData) (this : VideoGenerator)
  : VideoGenerator :=
  mk_generator (data_queue_ this) (Queue.push v (stack_out_ this))
    (live_out_ this) (debug_out_ this) (plate_solving_out_ this)
    (stacking_active_ this) (stacking_in_process_ this)
    (debug_active_ this) (stacker_log this).

Definition push_live (v : QueueData) (this : VideoGenerator)
  : VideoGenerator :=
  mk_generator (data_queue_ this) (stack_out_ this)
    (Queue.push v (live_out_ this)) (debug_out_ this)
    (plate_solving_out_ this) (stacking_active_ this)
    (stacking_in_process_ this) (debug_active_ this) (stacker_log this).

Definition push_debug (v : QueueData) (this : VideoGenerator)
  : VideoGenerator :=
  mk_generator (data_queue_ this) (stack_out_ this) (live_out_ this)
    (Queue.push v (debug_out_ this)) (plate_solving_out_ this)
    (stacking_active_ this) (stacking_in_process_ this)
    (debug_active_ this) (stacker_log this).

(** [plate_solving_out_->push(v)], for a pointer known not to be null. *)
Definition push_plate_solving (v : QueueData) (this : VideoGenerator)
  : VideoGenerator :=
  mk_generator (data_queue_ this) (stack_out_ this) (live_out_ this)
    (debug_out_ this)
    (option_map (Queue.push v) (plate_solving_out_ this))
    (stacking_active_ this) (stacking_in_process_ this)
    (debug_active_ this) (stacker_log this).

Definition set_flags (active in_process debug : bool)
  (this : VideoGenerator) : VideoGenerator :=
  mk_generator (data_queue_ this) (stack_out_ this) (live_out_ this)
    (debug_out_ this) (plate_solving_out_ this)
    active in_process debug (stacker_log this).

(** A pointer in a condition: true when it is not null. *)
Definition not_null {A : Type} (p : option A) : bool :=
  match p with
  | Some _ => true
  | None => false
  end.

(** ** Frame updates *)

Definition set_jpeg_frame (j : option (list Byte.byte)) (f : CameraFrame)
  : CameraFrame :=
  mk_frame (frame_format f) (bayer f) (source_frame f) (frame_dr f)
    (frame f) (raw f) j.

Definition set_frame (m : Mat) (f : CameraFrame) : CameraFrame :=
  mk_frame (frame_format f) (bayer f) (source_frame f) (frame_dr f)
    m (raw f) (jpeg_frame f).

Definition set_frame_dr (dr : Z) (f : CameraFrame) : CameraFrame :=
  mk_frame (frame_format f) (bayer f) (source_frame f) dr
    (frame f) (raw f) (jpeg_frame f).

Definition set_raw (m : Mat) (f : CameraFrame) : CameraFrame :=
  mk_frame (frame_format f) (bayer f) (source_frame f) (frame_dr f)
    (frame f) m (jpeg_frame f).

(** ** [int] arithmetic

    [int] is 32 bits wide.  [to_int] is the conversion of an integer
    value to [int]; products of [int]s are taken with the same
    wrap-around (the language leaves a product that overflows
    undefined: the properties that depend on one take it to fit). *)
Definition to_int (z : Z) : Z := (z + 2 ^ 31) mod 2 ^ 32 - 2 ^ 31.

Definition int_mul (a b : Z) : Z := to_int (a * b).

Definition in_int (z : Z) : Prop := - 2 ^ 31 <= z < 2 ^ 31.

(** [source_frame->size()] *)
Definition size (buf : list Byte.byte) : Z := Z.of_nat (List.length buf).

(** ** [handle_jpeg_stack]

    [convertTo image t dr] stands for
    [image.convertTo(normalized, t, 255.0 / dr)]. *)
Definition handle_jpeg_stack (this : VideoGenerator) (frame : CameraFrame)
  (image : Mat) (copy : bool) : CameraFrame :=
  let normalized :=
    if (frame_dr frame =? 255) && (elemSize1 image =? 1) then image
    else convertTo image
           (if channels image =? 3 then CV_8UC3 else CV_8UC1)
           (frame_dr frame) in
  let buf := imencode normalized in
  let frame := set_jpeg_frame (Some buf) frame in
  if stacking_active_ this || not_null (plate_solving_out_ this) then
    if copy then set_frame (clone image) frame
    else set_frame image frame
  else frame.

(** ** [process_frame] *)

(** The first [switch]: the bytes per pixel, [-1] for a compressed
    stream; [None] is the [default] branch, which logs and returns. *)
Definition bytes_per_pixel (t : CamStreamType) : option Z :=
  match t with
  | stream_mjpeg => Some (-1)
  | stream_mono8 | stream_raw8 => Some 1
  | stream_yuv2 | stream_mono16 | stream_raw16 => Some 2
  | stream_rgb24 => Some 3
  | stream_rgb48 => Some 6
  | _ => None
  end.

(** [frame->format.height*frame->format.width*bpp] *)
Definition expected_size (frame : CameraFrame) (bpp : Z) : Z :=
  int_mul (int_mul (height (frame_format frame)) (width (frame_format frame)))
          bpp.

(** The test of the [if] that follows the first [switch]. *)
Definition size_mismatch (frame : CameraFrame) (bpp : Z) : bool :=
  (0 <? bpp)
  && negb (to_int (size (source_frame frame)) =? expected_size frame bpp).

Definition invalid_frame_size (frame : CameraFrame) (bpp : Z) : string :=
  "Invalid frame size got " ++ to_string (size (source_frame frame))
  ++ " bytes, expected " ++ to_string (expected_size frame bpp).

(** The routine each Bayer tag selects; [None] is the [default] branch
    of the inner [switch]. *)
Definition bayer_code (b : CamBayerType) : option color_code :=
  match b with
  | bayer_rg => Some COLOR_BayerBG2BGR
  | bayer_gr => Some COLOR_BayerGB2BGR
  | bayer_bg => Some COLOR_BayerRG2BGR
  | bayer_gb => Some COLOR_BayerGR2BGR
  | _ => None
  end.

(** The second [switch].  The result is what the branch logged and the
    frame as it stands at the [break]; [None] for a branch that
    returns.  The enumeration being closed, the [default] branch of
    the second [switch] has no case here. *)
Definition convert (this : VideoGenerator) (bpp : Z) (frame : CameraFrame)
  : list string * option CameraFrame :=
  let h := height (frame_format frame) in
  let w := width (frame_format frame) in
  match format (frame_format frame) with
  | stream_mjpeg =>
      let frame := set_jpeg_frame (Some (source_frame frame)) frame in
      if stacking_active_ this || not_null (plate_solving_out_ this) then
        let len := size (source_frame frame) in
        let buffer := Mat_of 1 len CV_8UC1 (source_frame frame) in
        match imdecode buffer with
        | Some m =>
            ([], Some (set_raw m (set_frame_dr 255 (set_frame m frame))))
        | None => (["Failed to extract jpeg"], None)
        end
      else ([], Some frame)
  | stream_yuv2 =>
      let yuv2 := Mat_of h w CV_8UC2 (source_frame frame) in
      let rgb := cvtColor yuv2 COLOR_YUV2BGR_YUYV in
      let frame := set_frame_dr 255 frame in
      let frame := set_raw yuv2 frame in
      ([], Some (handle_jpeg_stack this frame rgb false))
  | stream_rgb24 =>
      let rgb := Mat_of h w CV_8UC3 (source_frame frame) in
      let frame := set_frame_dr 255 frame in
      let frame := set_raw rgb frame in
      ([], Some (handle_jpeg_stack this frame rgb true))
  | stream_rgb48 =>
      let rgb := Mat_of h w CV_16UC3 (source_frame frame) in
      let frame := set_frame_dr 65535 frame in
      let frame := set_raw rgb frame in
      ([], Some (handle_jpeg_stack this frame rgb false))
  | stream_raw8 | stream_raw16 =>
      let bayer_mat :=
        Mat_of h w (if bpp =? 1 then CV_8UC1 else CV_16UC1)
          (source_frame frame) in
      let (logged, rgb) :=
        match bayer_code (bayer frame) with
        | Some code => ([], cvtColor bayer_mat code)
        | None => (["Invalid bayer patter"], Mat_new)
        end in
      let frame := set_frame_dr (if bpp =? 1 then 255 else 65535) frame in
      let frame := handle_jpeg_stack this frame rgb false in
      (logged, Some (set_raw bayer_mat frame))
  | stream_mono8 | stream_mono16 =>
      let mono :=
        Mat_of h w (if bpp =? 1 then CV_8UC1 else CV_16UC1)
          (source_frame frame) in
      let frame := set_frame_dr (if bpp =? 1 then 255 else 65535) frame in
      let frame := handle_jpeg_stack this frame mono true in
      ([], Some (set_raw mono frame))
  | stream_error =>
      let msg := string_of_list_byte (source_frame frame) in
      (["Got frame with error " ++ msg], None)
  end.

(** The four pushes that end [process_frame]. *)
Definition fan_out (frame : CameraFrame) (this : VideoGenerator)
  : VideoGenerator :=
  let this := push_live (frame_data frame) this in
  let this :=
    if stacking_active_ this then push_stack (frame_data frame) this
    else this in
  let this :=
    if debug_active_ this && stacking_active_ this
    then push_debug (frame_data frame) this
    else this in
  if not_null (plate_solving_out_ this) && negb (stacking_in_process_ this)
  then push_plate_solving (frame_data frame) this
  else this.

Definition process_frame (frame : CameraFrame) (this : VideoGenerator)
  : VideoGenerator :=
  match bytes_per_pixel (format (frame_format frame)) with
  | None => BOOSTER_ERROR "Got invalid format" this
  | Some bpp =>
      if size_mismatch frame bpp
      then BOOSTER_ERROR (invalid_frame_size frame bpp) this
      else
        let (logged, converted) := convert this bpp frame in
        let this := fold_left (fun g msg => BOOSTER_ERROR msg g) logged this in
        match converted with
        | None => this
        | Some frame => fan_out frame this
        end
  end.

(** ** [run] *)

(** The body of [if(ctl_ptr)]: the [switch] on the operation, then the
    three pushes. *)
Definition control (ctl : StackerControl) (this : VideoGenerator)
  : VideoGenerator :=
  let this :=
    match op ctl with
    | ctl_init => set_flags true true (save_inputs ctl) this
    | ctl_resume => set_flags true true (debug_active_ this) this
    | ctl_pause => set_flags false true (debug_active_ this) this
    | ctl_save | ctl_cancel => set_flags false false (debug_active_ this) this
    | ctl_update => this
    end in
  let this := push_live (control_data ctl) this in
  let this := push_stack (control_data ctl) this in
  push_debug (control_data ctl) this.

(** The body of [if(stop_ptr)] up to its [break]. *)
Definition stop (this : VideoGenerator) : VideoGenerator :=
  let this := push_live shutdown_data this in
  let this := push_stack shutdown_data this in
  push_debug shutdown_data this.

(** How [run] stands: returned through the [break], or inside
    [data_queue_->pop()] on an empty queue. *)
Inductive run_state : Type :=
| Returned (this : VideoGenerator)
| Waiting (this : VideoGenerator).

(** The [while(true)] loop on the messages [pending] in [data_queue_],
    head first.  Every iteration pops one message, so the loop is a
    recursion on [pending]; [data_queue_] is updated at each [pop]. *)
Fixpoint run_loop (pending : list QueueData) (this : VideoGenerator)
  : run_state :=
  match pending with
  | [] => Waiting this
  | data_ptr :: rest =>
      let this := set_data_queue (Queue.Build rest) this in
      match data_ptr with
      | shutdown_data => Returned (stop this)
      | frame_data frame_ptr => run_loop rest (process_frame frame_ptr this)
      | control_data ctl_ptr => run_loop rest (control ctl_ptr this)
      | other_data =>
          run_loop rest
            (BOOSTER_ERROR "Invalid data for video generator" this)
      end
  end.

Definition run (this : VideoGenerator) : run_state :=
  run_loop (Queue.data_ (data_queue_ this)) this.

Definition generator_of (s : run_state) : VideoGenerator :=
  match s with
  | Returned g => g
  | Waiting g => g
  end.

(** ** Vocabulary of the properties *)

(** The session state: active, in process, debug. *)
Definition flags (this : VideoGenerator) : bool * bool * bool :=
  (stacking_active_ this, stacking_in_process_ this, debug_active_ this).

(** The control transition table as the specification prints it, row
    by row; [carried] is the debug flag an [init] message carries.  It
    is compared with [control] below. *)
Definition transition_table (o : ctl_op) (carried : bool)
  (s : bool * bool * bool) : bool * bool * bool :=
  let '(active, in_process, debug) := s in
  match o with
  | ctl_init => (true, true, carried)
  | ctl_resume => (true, true, debug)
  | ctl_pause => (false, true, debug)
  | ctl_save => (false, false, debug)
  | ctl_cancel => (false, false, debug)
  | ctl_update => (active, in_process, debug)
  end.

(** The flags are coherent when [stacking_active_] implies
    [stacking_in_process_]. *)
Definition coherent (this : VideoGenerator) : Prop :=
  implb (stacking_active_ this) (stacking_in_process_ this) = true.

(** The fixed sizes of the specification's table, in bytes per pixel. *)
Definition pixel_sizes : list (CamStreamType * Z) :=
  [(stream_mono8, 1); (stream_raw8, 1); (stream_yuv2, 2);
   (stream_mono16, 2); (stream_raw16, 2); (stream_rgb24, 3);
   (stream_rgb48, 6)].

(** Nothing was pushed to any of the four outputs between [g] and [g']. *)
Definition same_outputs (g g' : VideoGenerator) : Prop :=
  live_out_ g' = live_out_ g
  /\ stack_out_ g' = stack_out_ g
  /\ debug_out_ g' = debug_out_ g
  /\ plate_solving_out_ g' = plate_solving_out_ g.

(** [frame] passes format processing in state [this] and leaves it as
    [frame']: the first [switch] gives a size, the size test passes and
    the second [switch] reaches its [break]. *)
Definition passes (this : VideoGenerator) (frame frame' : CameraFrame)
  : Prop :=
  exists (bpp : Z) (logged : list string),
    bytes_per_pixel (format (frame_format frame)) = Some bpp
    /\ size_mismatch frame bpp = false
    /\ convert this bpp frame = (logged, Some frame').

(** The messages the loop pops: those before the first sentinel. *)
Fixpoint until_shutdown (msgs : list QueueData) : list QueueData :=
  match msgs with
  | [] => []
  | shutdown_data :: _ => []
  | m :: rest => m :: until_shutdown rest
  end.

(** The control messages among [msgs], in order. *)
Fixpoint controls (msgs : list QueueData) : list StackerControl :=
  match msgs with
  | [] => []
  | control_data c :: rest => c :: controls rest
  | _ :: rest => controls rest
  end.

Definition is_frame (m : QueueData) : bool :=
  match m with
  | frame_data _ => true
  | _ => false
  end.

(** The transition table applied to a sequence of control messages. *)
Definition session_after (cs : list StackerControl)
  (s : bool * bool * bool) : bool * bool * bool :=
  fold_left (fun s c => transition_table (op c) (save_inputs c) s) cs s.

(** Whether the operation starts or restarts stacking, and whether it
    ends the session. *)
Definition activates (c : StackerControl) : bool :=
  match op c with
  | ctl_init | ctl_resume => true
  | _ => false
  end.

Definition ends_session (c : StackerControl) : bool :=
  match op c with
  | ctl_save | ctl_cancel => true
  | _ => false
  end.

Definition is_init (c : StackerControl) : bool :=
  match op c with
  | ctl_init => true
  | _ => false
  end.

(** [l] is [l'] with some elements left out, the order kept. *)
Inductive subseq {A : Type} : list A -> list A -> Prop :=
| subseq_nil : subseq [] []
| subseq_skip (x : A) (l l' : list A) : subseq l l' -> subseq l (x :: l')
| subseq_keep (x : A) (l l' : list A) :
    subseq l l' -> subseq (x :: l) (x :: l').

(** [q'] is [q] with [l] pushed at its tail. *)
Definition appended (q q' : queue_type) (l : list QueueData) : Prop :=
  Queue.data_ q' = (Queue.data_ q ++ l)%list.

(** The same for the plate solving output, which may be null. *)
Definition plate_appended (p p' : option queue_type) (l : list QueueData)
  : Prop :=
  match p, p' with
  | Some q, Some q' => appended q q' l
  | None, None => l = []
  | _, _ => False
  end.

(** What the stage pushed to the live, stacking, debug and plate
    solving outputs between [g] and [g']. *)
Definition pushed_between (g g' : VideoGenerator)
  (ll ls ld lp : list QueueData) : Prop :=
  appended (live_out_ g) (live_out_ g') ll
  /\ appended (stack_out_ g) (stack_out_ g') ls
  /\ appended (debug_out_ g) (debug_out_ g') ld
  /\ plate_appended (plate_solving_out_ g) (plate_solving_out_ g') lp.

(** What identifies a message along the pipeline: for a frame, the
    descriptor, the Bayer tag and the source buffer it was captured
    with (conversion fills in the other fields). *)
Inductive message_key : Type :=
| key_shutdown
| key_frame (fmt : CamStreamFormat) (b : CamBayerType)
    (buf : list Byte.byte)
| key_control (c : StackerControl)
| key_other.

Definition key_of (m : QueueData) : message_key :=
  match m with
  | shutdown_data => key_shutdown
  | frame_data f => key_frame (frame_format f) (bayer f) (source_frame f)
  | control_data c => key_control c
  | other_data => key_other
  end.

(** The four lists are routed as the stage routes: what goes to the
    stacking output goes to the live output, what goes to the debug
    output goes to the stacking output, the plate solving output gets
    frames that go to the live output, the control messages [cs] go
    to the first three in order, and nothing is of an unknown kind. *)
Definition well_routed (ll ls ld lp : list QueueData)
  (cs : list StackerControl) : Prop :=
  subseq ls ll
  /\ subseq ld ls
  /\ subseq lp ll
  /\ forallb is_frame lp = true
  /\ controls ll = cs
  /\ controls ls = cs
  /\ controls ld = cs
  /\ ~ In other_data ll.

End Stage.

End Video.


(* ================================================================= *)
(** * [include/stacker_ctl_app.h]: [StackerControlApp::control] *)
(* ================================================================= *)

Module ControlApp.

Import Camera Video.

Local Open Scope string_scope.

Section App.

Context `{Externals}.

(** The members [control] uses: the queue it pushes to and the status
    string ("idle" when the application is constructed). *)
Record StackerControlApp : Type := mk_app {
  queue_ : queue_type;
  status_ : string
}.

Definition new_StackerControlApp (queue : queue_type) : StackerControlApp :=
  mk_app queue "idle".

(** [cmd->op = o] *)
Definition set_op (o : ctl_op) (cmd : StackerControl) : StackerControl :=
  mk_control o (save_inputs cmd) (settings cmd).

(** [control()].  [fresh] is what [new StackerControl()] gives (the
    member defaults are declared in [data_items.h]); [operation] is the
    value of [content_.get<std::string>("operation")].  The result is
    the normal return or the [std::runtime_error], with the
    application afterwards. *)
Definition control (fresh : StackerControl) (operation : string)
  (app : StackerControlApp) : result unit * StackerControlApp :=
  let cmd := fresh in
  if operation =? "pause" then
    (Ok tt,
     mk_app (Queue.push (control_data (set_op ctl_pause cmd)) (queue_ app))
       "paused")
  else if operation =? "save" then
    (Ok tt,
     mk_app (Queue.push (control_data (set_op ctl_save cmd)) (queue_ app))
       (status_ app))
  else if operation =? "resume" then
    (Ok tt,
     mk_app (Queue.push (control_data (set_op ctl_resume cmd)) (queue_ app))
       "stacking")
  else if operation =? "cancel" then
    (Ok tt,
     mk_app (Queue.push (control_data (set_op ctl_cancel cmd)) (queue_ app))
       "idle")
  else (Throw ("Unknown operation " ++ operation), app).

(** ** Vocabulary of the properties *)

(** The operation tag a request names, if it names one. *)
Definition operation_tag (operation : string) : option ctl_op :=
  if operation =? "pause" then Some ctl_pause
  else if operation =? "save" then Some ctl_save
  else if operation =? "resume" then Some ctl_resume
  else if operation =? "cancel" then Some ctl_cancel
  else None.

(** A sequence of requests, each handled by [control]; a request that
    throws is answered with an error and the next one is handled. *)
Fixpoint control_all (fresh : StackerControl) (operations : list string)
  (app : StackerControlApp) : StackerControlApp :=
  match operations with
  | [] => app
  | o :: rest => control_all fresh rest (snd (control fresh o app))
  end.

(** The messages a sequence of requests asks for, in order. *)
Fixpoint requested (fresh : StackerControl) (operations : list string)
  : list QueueData :=
  match operations with
  | [] => []
  | o :: rest =>
      match operation_tag o with
      | Some t => control_data (set_op t fresh) :: requested fresh rest
      | None => requested fresh rest
      end
  end.

End App.

End ControlApp.


(* ================================================================= *)
(** * Concrete instances, to evaluate the model on examples *)
(* ================================================================= *)

Module Sample.

Import Camera Video.

Local Open Scope string_scope.

(** A linker that finds every library and every symbol; a handle is
    the path it was opened from, a symbol is its name, and a driver
    records the factory that made it and the option it was given. *)
Definition linker : Linker := {|
  handle := string;
  symbol := string;
  CameraDriver := string * Z;
  dlopen := fun path => Some path;
  dlsym := fun _ name => Some name;
  as_generator := fun f opt => Some (f, opt);
  as_config := fun _ _ => 0%Z
|}.

(** A linker with gaps: one library is missing, one library lacks
    its factory, one lacks its configuration function, one factory
    returns null, and the configuration string "bad" is refused. *)
Definition picky_linker : Linker := {|
  handle := string;
  symbol := string;
  CameraDriver := string * Z;
  dlopen := fun path =>
    if path =? "libols_driver_missing.so" then None else Some path;
  dlsym := fun _ name =>
    if name =? "ols_get_nofactory_driver" then None
    else if name =? "ols_set_noconfig_driver_config" then None
    else Some name;
  as_generator := fun f opt =>
    if f =? "ols_get_null_driver" then None else Some (f, opt);
  as_config := fun _ o => if o =? "bad" then 1%Z else 0%Z
|}.

(** The registry of the linker with gaps after loading "a". *)
Definition picky_a : registry (H := picky_linker) :=
  load_registry (load_driver (H := picky_linker) "a" "" None no_drivers).

(** Matrices that are their bytes, with codecs that change nothing. *)
Definition externals : Externals := {|
  Mat := list Byte.byte;
  Mat_new := [];
  Mat_of := fun _ _ _ data => data;
  cvtColor := fun m _ => m;
  imdecode := fun m => Some m;
  imencode := fun m => m;
  convertTo := fun m _ _ => m;
  elemSize1 := fun _ => 1%Z;
  channels := fun _ => 3%Z;
  clone := fun m => m;
  session_settings := unit
|}.

(** The registry after loading "a", "b" and "c" in this order. *)
Definition loaded_abc : registry (H := linker) :=
  load_registry
    (load_driver (H := linker) "c" "" None
       (load_registry
          (load_driver (H := linker) "b" "/usr/lib" (Some "gain=1")
             (load_registry
                (load_driver (H := linker) "a" "" None no_drivers))))).

Definition bytes (n : nat) : list Byte.byte := repeat Byte.x00 n.

Definition a_frame (t : CamStreamType) (b : CamBayerType) (w h : Z)
  (buf : list Byte.byte) : CameraFrame (H := externals) :=
  mk_frame (H := externals) (mk_format t w h) b buf 0%Z [] [] None.

Definition a_control (o : ctl_op) (debug : bool)
  : StackerControl (H := externals) :=
  mk_control (H := externals) o debug tt.

Definition a_generator (plate : bool) : VideoGenerator (H := externals) :=
  new_VideoGenerator Queue.empty Queue.empty Queue.empty Queue.empty
    (if plate then Some Queue.empty else None).

(** The messages of the specification's scenario. *)
Definition init : StackerControl (H := externals) := a_control ctl_init true.
Definition pause : StackerControl (H := externals) := a_control ctl_pause false.
Definition resume : StackerControl (H := externals) := a_control ctl_resume false.
Definition save : StackerControl (H := externals) := a_control ctl_save false.

Definition F1 : CameraFrame (H := externals) :=
  a_frame stream_mono8 bayer_na 2 2 (bytes 4).

Definition F2 : CameraFrame (H := externals) :=
  a_frame stream_rgb24 bayer_na 1 1 (bytes 3).

(** [F1] as converted while stacking is active, [F2] as converted
    while it is paused (no working matrix is kept then). *)
Definition F1' : CameraFrame (H := externals) :=
  mk_frame (H := externals) (mk_format stream_mono8 2 2) bayer_na (bytes 4)
    255%Z (bytes 4) (bytes 4) (Some (bytes 4)).

Definition F2' : CameraFrame (H := externals) :=
  mk_frame (H := externals) (mk_format stream_rgb24 1 1) bayer_na (bytes 3)
    255%Z [] (bytes 3) (Some (bytes 3)).

Definition scenario : list (QueueData (H := externals)) :=
  [control_data init; frame_data F1; control_data pause; frame_data F2;
   control_data resume; control_data save].

(** The stage along the scenario: new, after [init], after [pause],
    at the end. *)
Definition g0 : VideoGenerator (H := externals) :=
  new_VideoGenerator (Queue.Build scenario)
    Queue.empty Queue.empty Queue.empty None.

Definition g1 : VideoGenerator (H := externals) := control init g0.

Definition g3 : VideoGenerator (H := externals) :=
  control pause (process_frame F1 g1).

Definition g6 : VideoGenerator (H := externals) :=
  control save (control resume (process_frame F2 g3)).

(** A raw8 frame that declares 100 x 50 pixels and carries 3 bytes. *)
Definition short_raw8 : CameraFrame (H := externals) :=
  a_frame stream_raw8 bayer_rg 100 50 (bytes 3).

(** A frame with the error tag whose buffer reads "boom". *)
Definition boom : CameraFrame (H := externals) :=
  a_frame stream_error bayer_na 0 0 (list_byte_of_string "boom").

(** A raw8 frame of 2 x 1 pixels without a Bayer pattern. *)
Definition raw8_na : CameraFrame (H := externals) :=
  a_frame stream_raw8 bayer_na 2 1 (bytes 2).

(** The same with a decoder that always throws. *)
Definition no_decoder : Externals := {|
  Mat := list Byte.byte;
  Mat_new := [];
  Mat_of := fun _ _ _ data => data;
  cvtColor := fun m _ => m;
  imdecode := fun _ => None;
  imencode := fun m => m;
  convertTo := fun m _ _ => m;
  elemSize1 := fun _ => 1%Z;
  channels := fun _ => 3%Z;
  clone := fun m => m;
  session_settings := unit
|}.

(** A compressed frame of five bytes, for either instance. *)
Definition jpeg : CameraFrame (H := externals) :=
  a_frame stream_mjpeg bayer_na 0 0 (bytes 5).

Definition jpeg_undecoded : CameraFrame (H := no_decoder) :=
  mk_frame (H := no_decoder) (mk_format stream_mjpeg 0 0) bayer_na (bytes 5)
    0%Z [] [] None.

Definition stacking_no_decoder : VideoGenerator (H := no_decoder) :=
  mk_generator (H := no_decoder) Queue.empty Queue.empty Queue.empty
    Queue.empty None true true false [].

(** A stage with a plate solving output, after [init]. *)
Definition in_session : VideoGenerator (H := externals) :=
  control init (a_generator true).

(** The control application when constructed, and what
    [new StackerControl()] is taken to give. *)
Definition an_app : ControlApp.StackerControlApp (H := externals) :=
  ControlApp.new_StackerControlApp (H := externals) Queue.empty.

Definition fresh : StackerControl (H := externals) :=
  a_control ctl_init false.

End Sample.


(* ================================================================= *)
(** * Properties of the tag names *)
(* ================================================================= *)

Section NameProperties.

Import Camera.

Local Open Scope string_scope.

(** Decides the next comparison of a chain of [if s =? "..."], and
    closes the branch where it holds against [H : ~ In s names]. *)
Ltac next_name s H :=
  match goal with
  | |- context [String.eqb s ?n] =>
      destruct (String.eqb_spec s n) as [->|_];
      [exfalso; apply H; cbn; tauto|]
  end.

Lemma stream_type_from_str_unknown (s : string) :
  ~ In s stream_type_names ->
  stream_type_from_str s = Throw ("Invalid stream type " ++ s).
Proof.
  intro H. unfold stream_type_from_str.
  repeat next_name s H. reflexivity.
Qed.

Lemma bayer_type_from_str_unknown (s : string) :
  ~ In s bayer_type_names ->
  bayer_type_from_str s = Throw ("Invalid bayer format " ++ s).
Proof.
  intro H. unfold bayer_type_from_str.
  repeat next_name s H. reflexivity.
Qed.

Lemma cam_option_type_scan_unknown (names : list string) (i : N) (s : string) :
  ~ In s names -> cam_option_type_scan names i s = None.
Proof.
  revert i; induction names as [|n names IH]; intros i Hs; cbn.
  - reflexivity.
  - destruct (String.eqb_spec n s) as [->|_].
    + exfalso. apply Hs. now left.
    + apply IH. intro Hin. apply Hs. now right.
Qed.

Lemma cam_option_type_from_str_unknown (s : string) :
  ~ In s cam_option_type_names ->
  cam_option_type_from_str s = Throw ("Invalid type:" ++ s).
Proof.
  intro H. unfold cam_option_type_from_str.
  now rewrite cam_option_type_scan_unknown.
Qed.

Lemma cam_option_types_spec (o : CamOptionType) :
  (o < 6)%N <-> In o cam_option_types.
Proof.
  unfold cam_option_types; cbn. split.
  - intro Ho.
    assert (o = 0 \/ o = 1 \/ o = 2 \/ o = 3 \/ o = 4 \/ o = 5)%N as E
      by lia.
    intuition auto.
  - intros [<-|[<-|[<-|[<-|[<-|[<-|[]]]]]]]; lia.
Qed.

(** C8 as stated, read on all nine stream format tags, does not hold:
    the error tag has no name, [stream_type_to_str] throws on it. *)
Lemma stream_error_has_no_name :
  ~ (forall t : CamStreamType,
        exists n : string,
          stream_type_to_str t = Ok n /\ stream_type_from_str n = Ok t).
Proof.
  intro H. destruct (H stream_error) as (n & Hn & _). discriminate Hn.
Qed.

(** C8, amended.  For every stream format tag other than the error tag,
    every Bayer tag and every option value type tag (the values below
    six), the name of the tag converts back to the tag; on the error
    tag [stream_type_to_str] throws; and each of the three conversions
    from a string throws on every string that is not one of its
    names. *)
Theorem names_round_trip
  (t : CamStreamType) (b : CamBayerType) (o : CamOptionType) (s : string) :
  t <> stream_error ->
  In o cam_option_types ->
  (exists n, stream_type_to_str t = Ok n /\ stream_type_from_str n = Ok t)
  /\ (exists n, bayer_type_to_str b = Ok n /\ bayer_type_from_str n = Ok b)
  /\ (exists n, cam_option_type_to_str o = Ok n
                /\ cam_option_type_from_str n = Ok o)
  /\ stream_type_to_str stream_error = Throw "Invalid Stream type"
  /\ (~ In s stream_type_names ->
      stream_type_from_str s = Throw ("Invalid stream type " ++ s))
  /\ (~ In s bayer_type_names ->
      bayer_type_from_str s = Throw ("Invalid bayer format " ++ s))
  /\ (~ In s cam_option_type_names ->
      cam_option_type_from_str s = Throw ("Invalid type:" ++ s)).
Proof.
  intros Ht Ho. repeat split.
  - destruct t; try (eexists; split; reflexivity). now elim Ht.
  - destruct b; eexists; split; reflexivity.
  - cbn in Ho.
    destruct Ho as [<-|[<-|[<-|[<-|[<-|[<-|[]]]]]]];
      eexists; split; reflexivity.
  - apply stream_type_from_str_unknown.
  - apply bayer_type_from_str_unknown.
  - apply cam_option_type_from_str_unknown.
Qed.

Lemma names_round_trip_witness :
  stream_raw16 <> stream_error
  /\ In 2%N cam_option_types
  /\ (exists n, stream_type_to_str stream_raw16 = Ok n
                /\ stream_type_from_str n = Ok stream_raw16)
  /\ (exists n, cam_option_type_to_str 2%N = Ok n
                /\ cam_option_type_from_str n = Ok 2%N)
  /\ stream_type_from_str "jpeg" = Throw "Invalid stream type jpeg".
Proof.
  assert (Ht : stream_raw16 <> stream_error) by discriminate.
  assert (Ho : In 2%N cam_option_types) by (cbn; tauto).
  destruct (@names_round_trip stream_raw16 bayer_gr 2%N "jpeg" Ht Ho)
    as (Hs & _ & Hn & _ & Hu & _).
  split; [exact Ht|]. split; [exact Ho|]. split; [exact Hs|].
  split; [exact Hn|].
  apply Hu. cbn. intuition discriminate.
Defined.

End NameProperties.


(* ================================================================= *)
(** * Properties of the driver registry *)
(* ================================================================= *)

Section RegistryProperties.

Import Camera.

Local Open Scope string_scope.

Context `{Linker}.

Lemma existsb_eqb_In (name : string) (names : list string) :
  existsb (String.eqb name) names = true <-> In name names.
Proof.
  rewrite existsb_exists. split.
  - intros (x & Hx & E). apply String.eqb_eq in E. now subst.
  - intro Hin. exists name. split; [assumption | apply String.eqb_refl].
Qed.

(** Loading a name that is registered returns at once: no call to the
    dynamic linker, the two vectors as they were. *)
Lemma load_driver_present (name base_path : string) (opt : option string)
  (r : registry) :
  In name (driver_names r) ->
  load_driver name base_path opt r = mk_loaded (Ok tt) r [].
Proof.
  intro Hin. unfold load_driver.
  apply existsb_eqb_In in Hin. now rewrite Hin.
Qed.

(** A load of a new name that returns normally found the library and
    the factory symbol, and put the pair at index 0. *)
Lemma load_driver_new (name base_path : string) (opt : option string)
  (r : registry) :
  ~ In name (driver_names r) ->
  load_result (load_driver name base_path opt r) = Ok tt ->
  exists (h : handle) (f : symbol),
    dlopen (driver_path name base_path) = Some h
    /\ dlsym h ("ols_get_" ++ name ++ "_driver") = Some f
    /\ load_registry (load_driver name base_path opt r)
       = mk_registry (name :: driver_names r)
                     (as_generator f :: driver_calls r).
Proof.
  intros Hnew Hok. unfold load_driver in *.
  destruct (existsb (String.eqb name) (driver_names r)) eqn:E.
  { apply existsb_eqb_In in E. contradiction. }
  destruct (dlopen (driver_path name base_path)) as [h|] eqn:Eh;
    [|discriminate].
  destruct (dlsym h ("ols_get_" ++ name ++ "_driver")) as [f|] eqn:Ef;
    [|discriminate].
  exists h, f. split; [reflexivity|]. split; [exact Ef|].
  destruct opt as [o|]; [|reflexivity].
  destruct (dlsym h ("ols_set_" ++ name ++ "_driver_config")) as [g|];
    [|discriminate].
  destruct (as_config g o =? 0)%Z; [reflexivity | discriminate].
Qed.

(** C5.  Starting with no driver loaded, load three drivers with
    pairwise different names [a], [b], [c], each load returning
    normally.  Then [drivers()] is [c; b; a]; [get(0, opt)] returns what
    the factory resolved from [c]'s library returns for [opt] (and
    throws if that is null); and loading any of the three names again,
    with whatever path and configuration, returns normally without a
    call to the dynamic linker and leaves both vectors as they were. *)
Theorem registry_order
  (a b c base_a base_b base_c : string) (opt_a opt_b opt_c : option string) :
  let la := load_driver a base_a opt_a no_drivers in
  let lb := load_driver b base_b opt_b (load_registry la) in
  let lc := load_driver c base_c opt_c (load_registry lb) in
  let r := load_registry lc in
  a <> b -> a <> c -> b <> c ->
  load_result la = Ok tt ->
  load_result lb = Ok tt ->
  load_result lc = Ok tt ->
  drivers r = [c; b; a]
  /\ (exists (h : handle) (f : symbol),
         dlopen (driver_path c base_c) = Some h
         /\ dlsym h ("ols_get_" ++ c ++ "_driver") = Some f
         /\ forall external_option : Z,
             get 0 external_option r
             = match as_generator f external_option with
               | Some d => Ok d
               | None => Throw ("Failed to load camera " ++ to_string 0)
               end)
  /\ (forall (name base_path : string) (opt : option string),
         In name (drivers r) ->
         load_driver name base_path opt r = mk_loaded (Ok tt) r []).
Proof.
  intros la lb lc r Hab Hac Hbc Ha Hb Hc.
  destruct (@load_driver_new a base_a opt_a no_drivers) as (ha & fa & _ & _ & Ea);
    [cbn; tauto | exact Ha |].
  fold la in Ea.
  destruct (@load_driver_new b base_b opt_b (load_registry la))
    as (hb & fb & _ & _ & Eb);
    [rewrite Ea; cbn; intuition congruence | exact Hb |].
  fold lb in Eb. rewrite Ea in Eb. cbn in Eb.
  destruct (@load_driver_new c base_c opt_c (load_registry lb))
    as (hc & fc & Hopen & Hsym & Ec);
    [rewrite Eb; cbn; intuition congruence | exact Hc |].
  fold lc in Ec. fold r in Ec. rewrite Eb in Ec. cbn in Ec.
  split; [now rewrite Ec|]. split.
  - exists hc, fc. split; [exact Hopen|]. split; [exact Hsym|].
    intro external_option. rewrite Ec. reflexivity.
  - intros name base_path opt Hin. now apply load_driver_present.
Qed.

End RegistryProperties.

Lemma registry_order_witness :
  Camera.drivers Sample.loaded_abc = ["c"; "b"; "a"]%string
  /\ Camera.get 0 7 Sample.loaded_abc
     = Camera.Ok ("ols_get_c_driver"%string, 7%Z)
  /\ Camera.load_driver "b"%string ""%string None Sample.loaded_abc
     = Camera.mk_loaded (Camera.Ok tt) Sample.loaded_abc [].
Proof.
  destruct (@registry_order Sample.linker "a"%string "b"%string "c"%string
              ""%string "/usr/lib"%string ""%string None
              (Some "gain=1"%string) None)
    as (Hnames & (h & f & Hopen & Hsym & Hget) & Hagain);
    try discriminate; try reflexivity.
  split; [exact Hnames|]. split.
  - unfold Sample.loaded_abc. rewrite Hget.
    cbn in Hsym. injection Hsym as <-. reflexivity.
  - apply Hagain. rewrite Hnames. cbn. tauto.
Defined.


(* ================================================================= *)
(** * Properties of the frame dispatch stage *)
(* ================================================================= *)

Section StageProperties.

Import Camera Video.

Local Open Scope string_scope.
Local Open Scope Z_scope.

Context `{Externals}.

(** ** [int] arithmetic *)

Lemma to_int_exact (z : Z) : in_int z -> to_int z = z.
Proof.
  unfold in_int, to_int. intro Hz.
  rewrite Z.mod_small; lia.
Qed.

Lemma to_int_mul_l (a b : Z) : to_int (to_int a * b) = to_int (a * b).
Proof.
  unfold to_int. f_equal.
  replace ((a + 2 ^ 31) mod 2 ^ 32 - 2 ^ 31)
    with (a - 2 ^ 32 * ((a + 2 ^ 31) / 2 ^ 32))
    by (pose proof (Z.div_mod (a + 2 ^ 31) (2 ^ 32)); lia).
  replace ((a - 2 ^ 32 * ((a + 2 ^ 31) / 2 ^ 32)) * b + 2 ^ 31)
    with (a * b + 2 ^ 31 + (- ((a + 2 ^ 31) / 2 ^ 32) * b) * 2 ^ 32)
    by ring.
  apply Z_mod_plus_full.
Qed.

(** Where the product of the declared dimensions and the pixel size
    fits an [int], the code computes that product. *)
Lemma expected_size_exact (frame : CameraFrame) (bpp : Z) :
  in_int (height (frame_format frame) * width (frame_format frame) * bpp) ->
  expected_size frame bpp
  = height (frame_format frame) * width (frame_format frame) * bpp.
Proof.
  intro Hfit. unfold expected_size, int_mul.
  rewrite to_int_mul_l. now apply to_int_exact.
Qed.

Lemma size_mismatch_true (frame : CameraFrame) (bpp : Z) :
  0 < bpp ->
  in_int (size (source_frame frame)) ->
  in_int (height (frame_format frame) * width (frame_format frame) * bpp) ->
  size (source_frame frame)
  <> height (frame_format frame) * width (frame_format frame) * bpp ->
  size_mismatch frame bpp = true.
Proof.
  intros Hbpp Hsize Hfit Hne. unfold size_mismatch.
  rewrite expected_size_exact by assumption.
  rewrite to_int_exact by assumption.
  apply andb_true_iff. split.
  - now apply Z.ltb_lt.
  - apply negb_true_iff. now apply Z.eqb_neq.
Qed.

(** A buffer of exactly the declared size passes the test, whatever
    the size. *)
Lemma size_mismatch_false (frame : CameraFrame) (bpp : Z) :
  size (source_frame frame)
  = height (frame_format frame) * width (frame_format frame) * bpp ->
  size_mismatch frame bpp = false.
Proof.
  intro E. unfold size_mismatch, expected_size, int_mul.
  rewrite to_int_mul_l, <- E, Z.eqb_refl. apply andb_false_r.
Qed.

(** ** The log *)

Lemma log_all (logged : list string) (this : VideoGenerator) :
  fold_left (fun g msg => BOOSTER_ERROR msg g) logged this
  = mk_generator (data_queue_ this) (stack_out_ this) (live_out_ this)
      (debug_out_ this) (plate_solving_out_ this) (stacking_active_ this)
      (stacking_in_process_ this) (debug_active_ this)
      (stacker_log this ++ logged)%list.
Proof.
  revert this; induction logged as [|msg logged IH]; intro this; cbn.
  - rewrite app_nil_r. now destruct this.
  - rewrite IH. cbn. now rewrite <- app_assoc.
Qed.

(** ** The input queue does not influence a step *)

Lemma convert_set_data_queue (q : queue_type) (this : VideoGenerator)
  (bpp : Z) (frame : CameraFrame) :
  convert (set_data_queue q this) bpp frame = convert this bpp frame.
Proof. reflexivity. Qed.

Lemma fan_out_set_data_queue (q : queue_type) (this : VideoGenerator)
  (frame : CameraFrame) :
  fan_out frame (set_data_queue q this)
  = set_data_queue q (fan_out frame this).
Proof.
  destruct this as [dq so lo dbg [ps|] [|] [|] [|] lg]; reflexivity.
Qed.

Lemma process_frame_set_data_queue (q : queue_type) (this : VideoGenerator)
  (frame : CameraFrame) :
  process_frame frame (set_data_queue q this)
  = set_data_queue q (process_frame frame this).
Proof.
  unfold process_frame.
  destruct (bytes_per_pixel (format (frame_format frame))) as [bpp|];
    [|reflexivity].
  destruct (size_mismatch frame bpp); [reflexivity|].
  rewrite convert_set_data_queue.
  destruct (convert this bpp frame) as [logged [frame'|]];
    rewrite !log_all; [|reflexivity].
  apply (fan_out_set_data_queue q
           (mk_generator (data_queue_ this) (stack_out_ this)
              (live_out_ this) (debug_out_ this) (plate_solving_out_ this)
              (stacking_active_ this) (stacking_in_process_ this)
              (debug_active_ this) (stacker_log this ++ logged)%list)).
Qed.

Lemma control_set_data_queue (q : queue_type) (this : VideoGenerator)
  (ctl : StackerControl) :
  control ctl (set_data_queue q this) = set_data_queue q (control ctl this).
Proof. unfold control. destruct (op ctl); reflexivity. Qed.

Lemma passes_set_data_queue (q : queue_type) (this : VideoGenerator)
  (frame frame' : CameraFrame) :
  passes (set_data_queue q this) frame frame' <-> passes this frame frame'.
Proof. reflexivity. Qed.

(** Every iteration starts by replacing [data_queue_]: what it held
    before does not matter once something is pending. *)
Lemma run_loop_set_data_queue (q : queue_type) (pending : list QueueData)
  (this : VideoGenerator) :
  pending <> [] ->
  run_loop pending (set_data_queue q this) = run_loop pending this.
Proof.
  destruct pending as [|m rest]; [congruence|]. intros _. reflexivity.
Qed.

(** ** Control messages *)

(** C3.  A control message sets the three flags as the transition
    table says, with [save_inputs] as the debug flag an [init] carries;
    the message itself is pushed, as it came, to the live, stacking and
    debug outputs; the plate solving output and the log are left as
    they were; and the loop goes on with the next message. *)
Theorem control_transition
  (ctl : StackerControl) (this : VideoGenerator) (rest : list QueueData) :
  let this' := control ctl this in
  flags this' = transition_table (op ctl) (save_inputs ctl) (flags this)
  /\ live_out_ this' = Queue.push (control_data ctl) (live_out_ this)
  /\ stack_out_ this' = Queue.push (control_data ctl) (stack_out_ this)
  /\ debug_out_ this' = Queue.push (control_data ctl) (debug_out_ this)
  /\ plate_solving_out_ this' = plate_solving_out_ this
  /\ stacker_log this' = stacker_log this
  /\ run_loop (control_data ctl :: rest) this
     = run_loop rest (set_data_queue (Queue.Build rest) this').
Proof.
  cbn zeta. repeat split; try (unfold control; destruct (op ctl); reflexivity).
  cbn [run_loop]. now rewrite control_set_data_queue.
Qed.

(** ** Shutdown *)

Lemma run_loop_until_shutdown (pre : list QueueData) :
  ~ In shutdown_data pre ->
  forall this : VideoGenerator,
  exists g : VideoGenerator,
    run_loop pre this = Waiting g
    /\ forall post : list QueueData,
        run_loop (pre ++ shutdown_data :: post) this
        = Returned (stop (set_data_queue (Queue.Build post) g)).
Proof.
  induction pre as [|m pre IH]; intros Hpre this.
  - exists this. split; reflexivity.
  - assert (Hm : m <> shutdown_data) by (intro E; apply Hpre; now left).
    assert (Hrest : ~ In shutdown_data pre)
      by (intro Hin; apply Hpre; now right).
    specialize (IH Hrest).
    assert (Hne : forall post, (pre ++ shutdown_data :: post)%list <> [])
      by (intros post E; now apply app_eq_nil in E).
    destruct m as [|f|c|]; [congruence| | |]; cbn [run_loop app].
    + destruct (IH (process_frame f (set_data_queue (Queue.Build pre) this)))
        as (g & Hg & Hpost).
      exists g. split; [exact Hg|]. intro post. rewrite <- Hpost.
      rewrite !process_frame_set_data_queue.
      now rewrite !run_loop_set_data_queue by apply Hne.
    + destruct (IH (control c (set_data_queue (Queue.Build pre) this)))
        as (g & Hg & Hpost).
      exists g. split; [exact Hg|]. intro post. rewrite <- Hpost.
      rewrite !control_set_data_queue.
      now rewrite !run_loop_set_data_queue by apply Hne.
    + destruct (IH (BOOSTER_ERROR "Invalid data for video generator"
                      (set_data_queue (Queue.Build pre) this)))
        as (g & Hg & Hpost).
      exists g. split; [exact Hg|]. intro post. rewrite <- Hpost.
      change (BOOSTER_ERROR ?m (set_data_queue ?q this))
        with (set_data_queue q (BOOSTER_ERROR m this)).
      now rewrite !run_loop_set_data_queue by apply Hne.
Qed.

(** C7.  Let the input hold the messages [pre], none of them a
    sentinel, then a sentinel, then [post].  The loop works through
    [pre] and reaches a state [g]; popping the sentinel it pushes one
    sentinel to each of the live, stacking and debug outputs as [g] has
    them, nothing to the plate solving output, and returns.  [post] is
    left in the input queue, the flags and the log are those of [g]. *)
Theorem shutdown_forwarded
  (pre post : list QueueData) (this : VideoGenerator) :
  ~ In shutdown_data pre ->
  exists g g' : VideoGenerator,
    run_loop pre this = Waiting g
    /\ run_loop (pre ++ shutdown_data :: post) this = Returned g'
    /\ live_out_ g' = Queue.push shutdown_data (live_out_ g)
    /\ stack_out_ g' = Queue.push shutdown_data (stack_out_ g)
    /\ debug_out_ g' = Queue.push shutdown_data (debug_out_ g)
    /\ plate_solving_out_ g' = plate_solving_out_ g
    /\ data_queue_ g' = Queue.Build post
    /\ flags g' = flags g
    /\ stacker_log g' = stacker_log g.
Proof.
  intro Hpre.
  destruct (@run_loop_until_shutdown pre Hpre this) as (g & Hg & Hpost).
  exists g, (stop (set_data_queue (Queue.Build post) g)).
  split; [exact Hg|]. split; [apply Hpost|]. repeat split.
Qed.

(** ** Frames *)

Lemma fan_out_fields (frame : CameraFrame) (this : VideoGenerator) :
  let this' := fan_out frame this in
  live_out_ this' = Queue.push (frame_data frame) (live_out_ this)
  /\ stack_out_ this'
     = (if stacking_active_ this
        then Queue.push (frame_data frame) (stack_out_ this)
        else stack_out_ this)
  /\ debug_out_ this'
     = (if debug_active_ this && stacking_active_ this
        then Queue.push (frame_data frame) (debug_out_ this)
        else debug_out_ this)
  /\ plate_solving_out_ this'
     = match plate_solving_out_ this with
       | Some q =>
           Some (if stacking_in_process_ this then q
                 else Queue.push (frame_data frame) q)
       | None => None
       end
  /\ flags this' = flags this
  /\ stacker_log this' = stacker_log this
  /\ data_queue_ this' = data_queue_ this.
Proof.
  destruct this as [dq so lo dbg [ps|] [|] [|] [|] lg]; cbn;
    repeat split; reflexivity.
Qed.

Lemma process_frame_passes (this : VideoGenerator)
  (frame frame' : CameraFrame) :
  passes this frame frame' ->
  exists logged : list string,
    process_frame frame this
    = fan_out frame'
        (fold_left (fun g msg => BOOSTER_ERROR msg g) logged this).
Proof.
  intros (bpp & logged & Hbpp & Hsize & Hconv).
  exists logged. unfold process_frame.
  now rewrite Hbpp, Hsize, Hconv.
Qed.

(** A frame changes neither the flags nor the input queue, and does
    not register or remove the plate solving output. *)
Lemma process_frame_keeps (frame : CameraFrame) (this : VideoGenerator) :
  flags (process_frame frame this) = flags this
  /\ data_queue_ (process_frame frame this) = data_queue_ this
  /\ not_null (plate_solving_out_ (process_frame frame this))
     = not_null (plate_solving_out_ this).
Proof.
  unfold process_frame.
  destruct (bytes_per_pixel (format (frame_format frame))) as [bpp|];
    [|repeat split].
  destruct (size_mismatch frame bpp); [repeat split|].
  destruct (convert this bpp frame) as [logged [frame'|]];
    rewrite log_all; [|repeat split].
  destruct this as [dq so lo dbg [ps|] [|] [|] [|] lg]; repeat split.
Qed.

(** A frame that is dropped: the log apart, nothing changes. *)
Lemma BOOSTER_ERROR_same_outputs (msg : string) (this : VideoGenerator) :
  same_outputs this (BOOSTER_ERROR msg this).
Proof. repeat split. Qed.

(** C2.  (1) A frame that passes format processing, leaving it as
    [frame'], is pushed to the live output whatever the flags are; to
    the stacking output when [stacking_active_] holds and not
    otherwise; to the debug output when both [debug_active_] and
    [stacking_active_] hold and not otherwise; to the plate solving
    output when that output is registered and [stacking_in_process_]
    does not hold, and not otherwise.
    (2) On the input [init] with the debug flag set, [F1], [pause],
    [F2], [resume], [save], given to a new stage, with both frames
    passing format processing where they arrive: the live output
    receives all six in order, the stacking and the debug output
    receive the four control messages and [F1] but not [F2], the plate
    solving output receives nothing, and the loop then waits for more
    input. *)
Theorem frame_fan_out :
  (forall (this : VideoGenerator) (frame frame' : CameraFrame),
      passes this frame frame' ->
      let this' := process_frame frame this in
      live_out_ this' = Queue.push (frame_data frame') (live_out_ this)
      /\ stack_out_ this'
         = (if stacking_active_ this
            then Queue.push (frame_data frame') (stack_out_ this)
            else stack_out_ this)
      /\ debug_out_ this'
         = (if debug_active_ this && stacking_active_ this
            then Queue.push (frame_data frame') (debug_out_ this)
            else debug_out_ this)
      /\ plate_solving_out_ this'
         = match plate_solving_out_ this with
           | Some q =>
               Some (if stacking_in_process_ this then q
                     else Queue.push (frame_data frame') q)
           | None => None
           end)
  /\ (forall (so lo dbg : queue_type) (ps : option queue_type)
             (s0 s1 s2 s3 : session_settings) (d1 d2 d3 : bool)
             (F1 F1' F2 F2' : CameraFrame),
         let init := mk_control ctl_init true s0 in
         let pause := mk_control ctl_pause d1 s1 in
         let resume := mk_control ctl_resume d2 s2 in
         let save := mk_control ctl_save d3 s3 in
         let input :=
           [control_data init; frame_data F1; control_data pause;
            frame_data F2; control_data resume; control_data save] in
         let g0 := new_VideoGenerator (Queue.Build input) so lo dbg ps in
         let g1 := control init g0 in
         let g3 := control pause (process_frame F1 g1) in
         let g6 := control save (control resume (process_frame F2 g3)) in
         passes g1 F1 F1' ->
         passes g3 F2 F2' ->
         run g0 = Waiting (set_data_queue Queue.empty g6)
         /\ Queue.data_ (live_out_ g6)
            = (Queue.data_ lo
               ++ [control_data init; frame_data F1'; control_data pause;
                   frame_data F2'; control_data resume; control_data save])%list
         /\ Queue.data_ (stack_out_ g6)
            = (Queue.data_ so
               ++ [control_data init; frame_data F1'; control_data pause;
                   control_data resume; control_data save])%list
         /\ Queue.data_ (debug_out_ g6)
            = (Queue.data_ dbg
               ++ [control_data init; frame_data F1'; control_data pause;
                   control_data resume; control_data save])%list
         /\ plate_solving_out_ g6 = ps).
Proof.
  split.
  - intros this frame frame' Hpass this'. subst this'.
    destruct (process_frame_passes Hpass) as (logged & ->).
    rewrite log_all.
    destruct this as [dq so lo dbg [ps|] [|] [|] [|] lg]; cbn;
      repeat split; reflexivity.
  - intros so lo dbg ps s0 s1 s2 s3 d1 d2 d3 F1 F1' F2 F2'
      init pause resume save input g0 g1 g3 g6 Hp1 Hp2.
    split.
    + unfold run, g6, g3, g1. cbn [run_loop data_queue_ g0 new_VideoGenerator
                                     Queue.data_ input].
      rewrite ?control_set_data_queue, ?process_frame_set_data_queue.
      rewrite ?control_set_data_queue, ?process_frame_set_data_queue.
      rewrite ?control_set_data_queue, ?process_frame_set_data_queue.
      rewrite ?control_set_data_queue, ?process_frame_set_data_queue.
      reflexivity.
    + destruct (process_frame_passes Hp1) as (l1 & E1).
      unfold g6. destruct (process_frame_passes Hp2) as (l2 & ->).
      unfold g3. rewrite E1. rewrite !log_all.
      unfold g1, g0. destruct ps as [ps|]; cbn;
        rewrite <- !app_assoc; repeat split; reflexivity.
Qed.

(** ** The session state *)

Lemma control_coherent (ctl : StackerControl) (this : VideoGenerator) :
  coherent this -> coherent (control ctl this).
Proof.
  unfold coherent, control. intro Hc. destruct (op ctl); try reflexivity.
  exact Hc.
Qed.

Lemma process_frame_coherent (frame : CameraFrame) (this : VideoGenerator) :
  coherent this -> coherent (process_frame frame this).
Proof.
  unfold coherent. intro Hc.
  destruct (process_frame_keeps frame this) as (Hf & _).
  unfold flags in Hf. injection Hf as -> -> _. exact Hc.
Qed.

Lemma run_loop_coherent (pending : list QueueData) :
  forall this : VideoGenerator,
    coherent this -> coherent (generator_of (run_loop pending this)).
Proof.
  induction pending as [|m rest IH]; intros this Hc; [exact Hc|].
  destruct m as [|f|c|]; cbn [run_loop].
  - exact Hc.
  - apply IH. now apply process_frame_coherent.
  - apply IH. now apply control_coherent.
  - apply IH. exact Hc.
Qed.

(** With coherent flags a frame is not pushed to both the stacking and
    the plate solving output: one of the two is left as it was. *)
Lemma process_frame_exclusive (frame : CameraFrame) (this : VideoGenerator) :
  coherent this ->
  stack_out_ (process_frame frame this) = stack_out_ this
  \/ plate_solving_out_ (process_frame frame this) = plate_solving_out_ this.
Proof.
  unfold coherent, process_frame. intro Hc.
  destruct (bytes_per_pixel (format (frame_format frame))) as [bpp|];
    [|now left].
  destruct (size_mismatch frame bpp); [now left|].
  destruct (convert this bpp frame) as [logged [frame'|]];
    rewrite log_all; [|now left].
  destruct this as [dq so lo dbg [ps|] [|] [|] [|] lg];
    cbn in Hc |- *; try discriminate; auto.
Qed.

(** C9.  Whatever messages the loop has processed since the stage was
    constructed (sequences of control messages among them),
    [stacking_active_] implies [stacking_in_process_]; and a frame
    processed in such a state leaves the stacking output or the plate
    solving output as it was, so it is not pushed to both. *)
Theorem stacking_excludes_plate_solving
  (queue so lo dbg : queue_type) (ps : option queue_type)
  (msgs : list QueueData) (frame : CameraFrame) :
  let this :=
    generator_of (run_loop msgs (new_VideoGenerator queue so lo dbg ps)) in
  implb (stacking_active_ this) (stacking_in_process_ this) = true
  /\ (stack_out_ (process_frame frame this) = stack_out_ this
      \/ plate_solving_out_ (process_frame frame this)
         = plate_solving_out_ this).
Proof.
  intro this.
  assert (Hc : coherent this) by (apply run_loop_coherent; reflexivity).
  split; [exact Hc | now apply process_frame_exclusive].
Qed.

(** ** Frames that are dropped *)

Lemma bytes_per_pixel_table (t : CamStreamType) (bpp : Z) :
  bytes_per_pixel t = Some bpp /\ 0 < bpp <-> In (t, bpp) pixel_sizes.
Proof.
  unfold pixel_sizes. split.
  - intros [E Hpos]. destruct t; cbn in E; inversion E; subst; cbn;
      try lia; tauto.
  - cbn. intros [E|[E|[E|[E|[E|[E|[E|[]]]]]]]]; inversion E; subst; cbn;
      split; (reflexivity || lia).
Qed.

(** X26.  (1) The first [switch] gives a positive size for exactly the
    formats of the table, and that size is the table's: 1 for mono8 and
    raw8, 2 for yuv2, mono16 and raw16, 3 for rgb24, 6 for rgb48; for
    mjpeg it gives [-1].
    (2) A frame of one of these formats whose buffer length differs
    from width x height x bytes per pixel (both within the range of
    [int]) is logged as of invalid size and dropped: no output
    receives anything.
    (3) For mjpeg the size test never fires.
    (4) A raw8 frame that declares 100 x 50 pixels with a buffer of a
    length other than 5000 reaches no output. *)
Theorem wrong_size_dropped :
  (forall (t : CamStreamType) (bpp : Z),
      (bytes_per_pixel t = Some bpp /\ 0 < bpp <-> In (t, bpp) pixel_sizes)
      /\ bytes_per_pixel stream_mjpeg = Some (-1))
  /\ (forall (this : VideoGenerator) (frame : CameraFrame) (bpp : Z),
         In (format (frame_format frame), bpp) pixel_sizes ->
         in_int (size (source_frame frame)) ->
         in_int (height (frame_format frame) * width (frame_format frame)
                 * bpp) ->
         size (source_frame frame)
         <> height (frame_format frame) * width (frame_format frame) * bpp ->
         process_frame frame this
         = BOOSTER_ERROR (invalid_frame_size frame bpp) this
         /\ same_outputs this (process_frame frame this))
  /\ (forall frame : CameraFrame, size_mismatch frame (-1) = false)
  /\ (forall (this : VideoGenerator) (frame : CameraFrame),
         frame_format frame = mk_format stream_raw8 100 50 ->
         in_int (size (source_frame frame)) ->
         size (source_frame frame) <> 5000 ->
         same_outputs this (process_frame frame this)).
Proof.
  assert (Hdrop :
    forall (this : VideoGenerator) (frame : CameraFrame) (bpp : Z),
      In (format (frame_format frame), bpp) pixel_sizes ->
      in_int (size (source_frame frame)) ->
      in_int (height (frame_format frame) * width (frame_format frame)
              * bpp) ->
      size (source_frame frame)
      <> height (frame_format frame) * width (frame_format frame) * bpp ->
      process_frame frame this
      = BOOSTER_ERROR (invalid_frame_size frame bpp) this).
  { intros this frame bpp Hin Hsize Hfit Hne.
    apply bytes_per_pixel_table in Hin. destruct Hin as [Hbpp Hpos].
    unfold process_frame. rewrite Hbpp.
    now rewrite size_mismatch_true. }
  split; [|split; [|split]].
  - intros t bpp. split; [apply bytes_per_pixel_table | reflexivity].
  - intros this frame bpp Hin Hsize Hfit Hne.
    rewrite (Hdrop this frame bpp) by assumption.
    split; [reflexivity | apply BOOSTER_ERROR_same_outputs].
  - intro frame. reflexivity.
  - intros this frame Hfmt Hsize Hne.
    rewrite (Hdrop this frame 1).
    + apply BOOSTER_ERROR_same_outputs.
    + rewrite Hfmt. cbn. tauto.
    + exact Hsize.
    + rewrite Hfmt. unfold in_int. cbn. lia.
    + rewrite Hfmt. cbn. exact Hne.
Qed.

(** C6, as the code has it.  The size test compares [int]s: the length
    of the buffer converted to [int] with the product of height, width
    and pixel size taken in [int].  A mono8 frame that declares
    65536 x 65536 pixels and carries an empty buffer has a product of
    [2^32], which is 0 as an [int], and a length of 0: the test does
    not fire although the length differs from the product.  Nothing is
    logged, the frame is converted and pushed to the live output. *)
Theorem size_check_overflows
  (this : VideoGenerator) (b : CamBayerType) (dr : Z) (m r : Mat)
  (j : option (list Byte.byte)) :
  let fr := mk_frame (mk_format stream_mono8 65536 65536) b [] dr m r j in
  let mono := Mat_of 65536 65536 CV_8UC1 [] in
  let fr' :=
    set_raw mono (handle_jpeg_stack this (set_frame_dr 255 fr) mono true) in
  size (source_frame fr)
  <> height (frame_format fr) * width (frame_format fr) * 1
  /\ bytes_per_pixel (format (frame_format fr)) = Some 1
  /\ expected_size fr 1 = 0
  /\ size_mismatch fr 1 = false
  /\ passes this fr fr'
  /\ process_frame fr this = fan_out fr' this
  /\ live_out_ (process_frame fr this)
     = Queue.push (frame_data fr') (live_out_ this)
  /\ stacker_log (process_frame fr this) = stacker_log this.
Proof.
  intros fr mono fr'.
  assert (Hconv : convert this 1 fr = ([], Some fr')) by reflexivity.
  assert (E : process_frame fr this = fan_out fr' this).
  { unfold process_frame.
    change (bytes_per_pixel (format (frame_format fr))) with (Some 1).
    change (size_mismatch fr 1) with false.
    cbn iota. rewrite Hconv. cbn [fold_left]. reflexivity. }
  split; [cbn; lia|]. split; [reflexivity|]. split; [reflexivity|].
  split; [reflexivity|].
  split; [exists 1, []; repeat split; exact Hconv|].
  split; [exact E|]. rewrite E.
  destruct (fan_out_fields fr' this) as (-> & _ & _ & _ & _ & -> & _).
  split; reflexivity.
Qed.

(** C4, as the code has it.  A frame with the error tag gets no size
    from the first [switch], whose [default] branch logs "Got invalid
    format" and returns: the frame reaches no output, and the branch of
    the second [switch] that would log the text of its buffer is never
    reached. *)
Theorem error_frame_dropped_at_first_switch
  (this : VideoGenerator) (frame : CameraFrame) :
  format (frame_format frame) = stream_error ->
  process_frame frame this = BOOSTER_ERROR "Got invalid format" this
  /\ stacker_log (process_frame frame this)
     = (stacker_log this ++ ["Got invalid format"])%list
  /\ same_outputs this (process_frame frame this)
  /\ forall bpp : Z,
      convert this bpp frame
      = (["Got frame with error " ++ string_of_list_byte (source_frame frame)],
         None).
Proof.
  intro Hfmt. unfold process_frame, convert. rewrite Hfmt. cbn.
  repeat split.
Qed.

(** ** Raw frames without a Bayer pattern *)

(** Whenever [process_frame] logs, it leaves the outputs as they were,
    unless the frame is a raw one without a Bayer pattern. *)
Lemma process_frame_logs (frame : CameraFrame) (this : VideoGenerator) :
  stacker_log (process_frame frame this) = stacker_log this
  \/ same_outputs this (process_frame frame this)
  \/ ((format (frame_format frame) = stream_raw8
       \/ format (frame_format frame) = stream_raw16)
      /\ bayer frame = bayer_na).
Proof.
  unfold process_frame.
  destruct (bytes_per_pixel (format (frame_format frame))) as [bpp|];
    [|right; left; apply BOOSTER_ERROR_same_outputs].
  destruct (size_mismatch frame bpp);
    [right; left; apply BOOSTER_ERROR_same_outputs|].
  destruct (convert this bpp frame) as [logged [frame'|]] eqn:Hconv;
    rewrite log_all; [|right; left; repeat split].
  assert (Hlog : logged = []
                 \/ ((format (frame_format frame) = stream_raw8
                      \/ format (frame_format frame) = stream_raw16)
                     /\ bayer frame = bayer_na)).
  { unfold convert in Hconv.
    destruct (format (frame_format frame)); try (left; congruence);
      try (destruct (stacking_active_ this
                     || not_null (plate_solving_out_ this));
           [destruct (imdecode _)|]; left; congruence);
      destruct (bayer frame); cbn in Hconv;
        try (left; congruence); right; auto. }
  destruct Hlog as [->|Hraw]; [left | right; right; exact Hraw].
  destruct (fan_out_fields frame'
              (mk_generator (data_queue_ this) (stack_out_ this)
                 (live_out_ this) (debug_out_ this)
                 (plate_solving_out_ this) (stacking_active_ this)
                 (stacking_in_process_ this) (debug_active_ this)
                 (stacker_log this ++ [])%list))
    as (_ & _ & _ & _ & _ & -> & _).
  cbn. apply app_nil_r.
Qed.

(** C10.  (1) A raw8 or raw16 frame of the right buffer length whose
    Bayer tag is NA passes format processing: "Invalid bayer patter" is
    logged, the empty matrix [Mat_new] is what [handle_jpeg_stack]
    receives as the colour image, and the frame goes through the
    fan-out like any other, so the live output receives it.
    (2) This is the only case in which [process_frame] logs and still
    pushes: in every other case where something is logged, no output
    receives anything. *)
Theorem raw_frame_without_bayer_pattern :
  (forall (this : VideoGenerator) (frame : CameraFrame) (bpp : Z),
      (format (frame_format frame) = stream_raw8 /\ bpp = 1)
      \/ (format (frame_format frame) = stream_raw16 /\ bpp = 2) ->
      bayer frame = bayer_na ->
      size (source_frame frame)
      = height (frame_format frame) * width (frame_format frame) * bpp ->
      let bayer_mat :=
        Mat_of (height (frame_format frame)) (width (frame_format frame))
          (if bpp =? 1 then CV_8UC1 else CV_16UC1) (source_frame frame) in
      let frame' :=
        set_raw bayer_mat
          (handle_jpeg_stack this
             (set_frame_dr (if bpp =? 1 then 255 else 65535) frame)
             Mat_new false) in
      let this' := process_frame frame this in
      passes this frame frame'
      /\ this' = fan_out frame' (BOOSTER_ERROR "Invalid bayer patter" this)
      /\ stacker_log this'
         = (stacker_log this ++ ["Invalid bayer patter"])%list
      /\ live_out_ this' = Queue.push (frame_data frame') (live_out_ this))
  /\ (forall (this : VideoGenerator) (frame : CameraFrame),
         stacker_log (process_frame frame this) = stacker_log this
         \/ same_outputs this (process_frame frame this)
         \/ ((format (frame_format frame) = stream_raw8
              \/ format (frame_format frame) = stream_raw16)
             /\ bayer frame = bayer_na)).
Proof.
  split; [|intros this frame; apply process_frame_logs].
  intros this frame bpp Hfmt Hbayer Hlen bayer_mat frame' this'.
  assert (Hbpp : bytes_per_pixel (format (frame_format frame)) = Some bpp)
    by (destruct Hfmt as [[-> ->]|[-> ->]]; reflexivity).
  assert (Hok : size_mismatch frame bpp = false)
    by now apply size_mismatch_false.
  assert (Hconv : convert this bpp frame
                  = (["Invalid bayer patter"], Some frame')).
  { unfold convert. rewrite Hbayer.
    destruct Hfmt as [[-> ->]|[-> ->]]; reflexivity. }
  assert (E : this'
              = fan_out frame' (BOOSTER_ERROR "Invalid bayer patter" this)).
  { unfold this', process_frame. now rewrite Hbpp, Hok, Hconv. }
  split; [exists bpp, ["Invalid bayer patter"]; auto|].
  split; [exact E|]. rewrite E.
  destruct (fan_out_fields frame'
              (BOOSTER_ERROR "Invalid bayer patter" this))
    as (-> & _ & _ & _ & _ & -> & _).
  split; reflexivity.
Qed.

End StageProperties.


(* ================================================================= *)
(** * The properties on the concrete instances *)
(* ================================================================= *)

Section Examples.

Import Camera Video Sample.

Local Open Scope string_scope.
Local Open Scope Z_scope.

Lemma frame_fan_out_witness :
  passes g1 F1 F1'
  /\ passes g3 F2 F2'
  /\ Queue.data_ (live_out_ (process_frame F1 g1))
     = [control_data init; frame_data F1']
  /\ run g0 = Waiting (set_data_queue Queue.empty g6)
  /\ Queue.data_ (live_out_ g6)
     = [control_data init; frame_data F1'; control_data pause;
        frame_data F2'; control_data resume; control_data save]
  /\ Queue.data_ (stack_out_ g6)
     = [control_data init; frame_data F1'; control_data pause;
        control_data resume; control_data save].
Proof.
  assert (Hp1 : passes g1 F1 F1')
    by (exists 1, []; repeat split; reflexivity).
  assert (Hp2 : passes g3 F2 F2')
    by (exists 3, []; repeat split; reflexivity).
  destruct (@frame_fan_out externals) as [Hone Hrun].
  destruct (Hone g1 F1 F1' Hp1) as (Hlive & _).
  destruct (Hrun Queue.empty Queue.empty Queue.empty None tt tt tt tt
              false false false F1 F1' F2 F2' Hp1 Hp2)
    as (Hwait & Hl & Hs & _).
  split; [exact Hp1|]. split; [exact Hp2|].
  split; [rewrite Hlive; reflexivity|].
  split; [exact Hwait|]. split; [exact Hl | exact Hs].
Defined.

Lemma shutdown_forwarded_witness :
  exists g g' : VideoGenerator (H := externals),
    run_loop [control_data init; frame_data F1] (a_generator true)
    = Waiting g
    /\ run_loop [control_data init; frame_data F1; shutdown_data;
                 frame_data F2] (a_generator true)
       = Returned g'
    /\ live_out_ g' = Queue.push shutdown_data (live_out_ g)
    /\ stack_out_ g' = Queue.push shutdown_data (stack_out_ g)
    /\ debug_out_ g' = Queue.push shutdown_data (debug_out_ g)
    /\ plate_solving_out_ g' = plate_solving_out_ g
    /\ data_queue_ g' = Queue.Build [frame_data F2]
    /\ flags g' = flags g
    /\ stacker_log g' = stacker_log g.
Proof.
  apply (@shutdown_forwarded externals
           [control_data init; frame_data F1] [frame_data F2]
           (a_generator true)).
  cbn. intuition discriminate.
Defined.

Lemma wrong_size_dropped_witness :
  In (stream_raw8, 1) pixel_sizes
  /\ stacker_log (process_frame short_raw8 (a_generator true))
     = ["Invalid frame size got 3 bytes, expected 5000"]
  /\ same_outputs (a_generator true)
       (process_frame short_raw8 (a_generator true)).
Proof.
  destruct (@wrong_size_dropped externals) as (Htable & Hdrop & _ & Hraw8).
  assert (Hin : In (stream_raw8, 1) pixel_sizes)
    by (apply (Htable stream_raw8 1); split; [reflexivity | lia]).
  assert (Hsize : in_int (size (source_frame short_raw8)))
    by (unfold in_int; cbn; lia).
  destruct (Hdrop (a_generator true) short_raw8 1) as (E & _).
  - exact Hin.
  - exact Hsize.
  - unfold in_int; cbn; lia.
  - cbn; lia.
  - split; [exact Hin|]. split; [rewrite E; reflexivity|].
    apply Hraw8; [reflexivity | exact Hsize | cbn; lia].
Defined.

Lemma error_frame_dropped_at_first_switch_witness :
  stacker_log (process_frame boom (a_generator true))
  = ["Got invalid format"]
  /\ same_outputs (a_generator true) (process_frame boom (a_generator true))
  /\ convert (a_generator true) 1 boom
     = (["Got frame with error boom"], None).
Proof.
  destruct (@error_frame_dropped_at_first_switch externals
              (a_generator true) boom eq_refl)
    as (_ & Hlog & Hsame & Hconv).
  split; [exact Hlog|]. split; [exact Hsame | exact (Hconv 1)].
Defined.

Lemma raw_frame_without_bayer_pattern_witness :
  stacker_log (process_frame raw8_na (a_generator true))
  = ["Invalid bayer patter"]
  /\ Queue.data_ (live_out_ (process_frame raw8_na (a_generator true)))
     = [frame_data
          (mk_frame (H := externals) (mk_format stream_raw8 2 1) bayer_na
             (bytes 2) 255 [] (bytes 2) (Some []))].
Proof.
  destruct (@raw_frame_without_bayer_pattern externals) as [Hraw _].
  destruct (Hraw (a_generator true) raw8_na 1) as (_ & _ & Hlog & Hlive).
  - left. split; reflexivity.
  - reflexivity.
  - reflexivity.
  - rewrite Hlog, Hlive. split; reflexivity.
Defined.

End Examples.


(* ================================================================= *)
(** * Further properties of the tag and option names *)
(* ================================================================= *)

Section MoreNameProperties.

Import Camera.

Local Open Scope string_scope.

(** Decides the comparisons of a chain of [if s =? "..."] in [H], one
    after the other; where one holds, [H] gives the tag returned. *)
Ltac decode_name s H :=
  repeat match type of H with
         | context [String.eqb s ?n] =>
             destruct (String.eqb_spec s n) as [->|?];
             [inversion H; subst; cbn; auto 20|]
         end.

(** X1.  [stream_type_from_str] accepts the eight stream format names
    and nothing else: when it returns a tag, the string is one of the
    names, the tag is not the error tag, and [stream_type_to_str] gives
    the string back. *)
Theorem stream_type_from_str_inverse (s : string) (t : CamStreamType) :
  stream_type_from_str s = Ok t ->
  In s stream_type_names
  /\ t <> stream_error
  /\ stream_type_to_str t = Ok s.
Proof.
  intro H. unfold stream_type_from_str in H.
  decode_name s H; try discriminate H;
    repeat split; (tauto || discriminate).
Qed.

Lemma stream_type_from_str_inverse_witness :
  In "raw16" stream_type_names
  /\ stream_raw16 <> stream_error
  /\ stream_type_to_str stream_raw16 = Ok "raw16".
Proof.
  exact (@stream_type_from_str_inverse "raw16" stream_raw16 eq_refl).
Defined.

(** X2.  [bayer_type_from_str] accepts the five Bayer names and nothing
    else: when it returns a tag, the string is one of the names and
    [bayer_type_to_str] gives the string back. *)
Theorem bayer_type_from_str_inverse (s : string) (b : CamBayerType) :
  bayer_type_from_str s = Ok b ->
  In s bayer_type_names /\ bayer_type_to_str b = Ok s.
Proof.
  intro H. unfold bayer_type_from_str in H.
  decode_name s H; try discriminate H;
    split; (tauto || reflexivity).
Qed.

Lemma bayer_type_from_str_inverse_witness :
  In "GRBG" bayer_type_names /\ bayer_type_to_str bayer_gr = Ok "GRBG".
Proof.
  exact (@bayer_type_from_str_inverse "GRBG" bayer_gr eq_refl).
Defined.

Lemma cam_option_type_scan_found (names : list string) (s : string) :
  forall i j : N,
    cam_option_type_scan names i s = Some j ->
    (i <= j)%N /\ nth_error names (N.to_nat (j - i)) = Some s.
Proof.
  induction names as [|n names IH]; intros i j Hj; cbn in Hj.
  - discriminate.
  - destruct (String.eqb_spec n s) as [->|_].
    + injection Hj as <-. split; [lia|]. now rewrite N.sub_diag.
    + apply IH in Hj. destruct Hj as [Hle Hnth]. split; [lia|].
      replace (N.to_nat (j - i)) with (S (N.to_nat (j - N.succ i))) by lia.
      exact Hnth.
Qed.

(** X3.  The option value types have exactly the six values below six:
    [cam_option_type_to_str] throws "Invalid type" on every other
    value, and whenever [cam_option_type_from_str] returns a value, the
    value is below six and [cam_option_type_to_str] gives the string
    back. *)
Theorem cam_option_type_bounds :
  (forall t : CamOptionType,
      (6 <= t)%N -> cam_option_type_to_str t = Throw "Invalid type")
  /\ (forall (s : string) (t : CamOptionType),
         cam_option_type_from_str s = Ok t ->
         (t < 6)%N /\ cam_option_type_to_str t = Ok s).
Proof.
  split.
  - intros t Ht. unfold cam_option_type_to_str.
    assert (E : nth_error cam_option_type_names (N.to_nat t) = None)
      by (apply nth_error_None; cbn; lia).
    now rewrite E.
  - intros s t H. unfold cam_option_type_from_str in H.
    destruct (cam_option_type_scan cam_option_type_names 0 s) as [j|] eqn:E;
      [|discriminate].
    injection H as <-.
    apply cam_option_type_scan_found in E. destruct E as [_ E].
    rewrite N.sub_0_r in E. split.
    + assert (N.to_nat j < List.length cam_option_type_names)%nat
        by (apply nth_error_Some; congruence).
      cbn in *. lia.
    + unfold cam_option_type_to_str. now rewrite E.
Qed.

Lemma cam_option_type_bounds_witness :
  cam_option_type_to_str 6%N = Throw "Invalid type"
  /\ (3 < 6)%N
  /\ cam_option_type_to_str 3%N = Ok "percent".
Proof.
  destruct cam_option_type_bounds as [Hout Hin].
  split; [apply Hout; lia|].
  exact (Hin "percent" 3%N eq_refl).
Defined.

Lemma cam_option_id_scan_found (ids : list string) (s : string) :
  forall i j : N,
    cam_option_id_scan ids i s = Some j ->
    (i <= j)%N /\ nth_error ids (N.to_nat (j - i)) = Some s.
Proof.
  induction ids as [|n ids IH]; intros i j Hj; cbn in Hj.
  - discriminate.
  - destruct (String.eqb_spec s n) as [->|_].
    + injection Hj as <-. split; [lia|]. now rewrite N.sub_diag.
    + apply IH in Hj. destruct Hj as [Hle Hnth]. split; [lia|].
      replace (N.to_nat (j - i)) with (S (N.to_nat (j - N.succ i))) by lia.
      exact Hnth.
Qed.

Lemma cam_option_id_scan_missing (ids : list string) (s : string) :
  ~ In s ids -> forall i : N, cam_option_id_scan ids i s = None.
Proof.
  induction ids as [|n ids IH]; intros Hs i; cbn; [reflexivity|].
  destruct (String.eqb_spec s n) as [->|_].
  - exfalso. apply Hs. now left.
  - apply IH. intro Hin. apply Hs. now right.
Qed.

Lemma below_16 (id : N) :
  (id < 16)%N ->
  In id [0; 1; 2; 3; 4; 5; 6; 7; 8; 9; 10; 11; 12; 13; 14; 15]%N.
Proof.
  intro Hid.
  destruct id as [|p]; [cbn; tauto|].
  do 4 (destruct p as [p|p|]; try (cbn in Hid; lia); try (cbn; tauto)).
Qed.

(** X4.  The sixteen option identifiers and their string ids convert
    into each other: for an identifier below sixteen the string id
    converts back to it; whenever [cam_option_id_from_string_id]
    returns an identifier, it is below sixteen and its string id is the
    string given; and every string that is not one of the string ids is
    refused with "Invalid option id". *)
Theorem cam_option_id_round_trip :
  (forall id : CamOptionId,
      (id < 16)%N ->
      exists s : string,
        cam_option_id_to_string_id id = Ok s
        /\ cam_option_id_from_string_id s = Ok id)
  /\ (forall (s : string) (id : CamOptionId),
         cam_option_id_from_string_id s = Ok id ->
         (id < 16)%N /\ cam_option_id_to_string_id id = Ok s)
  /\ (forall s : string,
         ~ In s option_string_ids ->
         cam_option_id_from_string_id s = Throw "Invalid option id").
Proof.
  split; [|split].
  - intros id Hid. apply below_16 in Hid. cbn in Hid.
    repeat (destruct Hid as [<-|Hid];
            [eexists; split; reflexivity|]).
    contradiction.
  - intros s id H. unfold cam_option_id_from_string_id in H.
    destruct (cam_option_id_scan option_string_ids 0 s) as [j|] eqn:E;
      [|discriminate].
    injection H as <-.
    apply cam_option_id_scan_found in E. destruct E as [_ E].
    rewrite N.sub_0_r in E. split.
    + assert (N.to_nat j < List.length option_string_ids)%nat
        by (apply nth_error_Some; congruence).
      cbn in *. lia.
    + unfold cam_option_id_to_string_id. now rewrite E.
  - intros s Hs. unfold cam_option_id_from_string_id.
    now rewrite cam_option_id_scan_missing.
Qed.

Lemma cam_option_id_round_trip_witness :
  (exists s : string,
      cam_option_id_to_string_id 6%N = Ok s
      /\ cam_option_id_from_string_id s = Ok 6%N)
  /\ cam_option_id_to_string_id 15%N = Ok "live_stretch"
  /\ cam_option_id_from_string_id "Gain" = Throw "Invalid option id".
Proof.
  destruct cam_option_id_round_trip as (Hto & Hfrom & Hunknown).
  split; [apply Hto; lia|].
  split; [exact (proj2 (Hfrom "live_stretch" 15%N eq_refl))|].
  apply Hunknown. cbn. intuition discriminate.
Defined.

(** X5.  The display names run parallel to the string ids: an option
    identifier has a display name exactly when it has a string id, that
    is when it is below sixteen; on every other value both conversions
    throw "Invalid option id". *)
Theorem cam_option_id_names_parallel (id : CamOptionId) :
  ((id < 16)%N ->
   (exists s, cam_option_id_to_string_id id = Ok s)
   /\ (exists n, cam_option_id_to_name id = Ok n))
  /\ ((16 <= id)%N ->
      cam_option_id_to_string_id id = Throw "Invalid option id"
      /\ cam_option_id_to_name id = Throw "Invalid option id").
Proof.
  split.
  - intro Hid. apply below_16 in Hid. cbn in Hid.
    repeat (destruct Hid as [<-|Hid];
            [split; eexists; reflexivity|]).
    contradiction.
  - intro Hid. unfold cam_option_id_to_string_id, cam_option_id_to_name.
    assert (E1 : nth_error option_string_ids (N.to_nat id) = None)
      by (apply nth_error_None; cbn; lia).
    assert (E2 : nth_error option_names (N.to_nat id) = None)
      by (apply nth_error_None; cbn; lia).
    now rewrite E1, E2.
Qed.

Lemma cam_option_id_names_parallel_witness :
  ((exists s, cam_option_id_to_string_id 11%N = Ok s)
   /\ (exists n, cam_option_id_to_name 11%N = Ok n))
  /\ cam_option_id_to_string_id 16%N = Throw "Invalid option id"
  /\ cam_option_id_to_name 16%N = Throw "Invalid option id".
Proof.
  split.
  - apply (proj1 (cam_option_id_names_parallel 11%N)). lia.
  - apply (proj2 (cam_option_id_names_parallel 16%N)). lia.
Defined.

End MoreNameProperties.


(* ================================================================= *)
(** * Further properties of the driver registry *)
(* ================================================================= *)

Section MoreRegistryProperties.

Import Camera.

Local Open Scope string_scope.

Context `{Linker}.

(** X6.  A call of [load_driver] that throws leaves both vectors as
    they were; a call that returns normally made no [dlclose]. *)
Theorem load_driver_failure
  (name base_path : string) (opt : option string) (r : registry) :
  (forall what : string,
      load_result (load_driver name base_path opt r) = Throw what ->
      load_registry (load_driver name base_path opt r) = r)
  /\ (load_result (load_driver name base_path opt r) = Ok tt ->
      forall h : handle,
        ~ In (call_dlclose h) (load_calls (load_driver name base_path opt r))).
Proof.
  unfold load_driver.
  destruct (existsb (String.eqb name) (driver_names r)).
  { split; [discriminate | intros _ h []]. }
  destruct (dlopen (driver_path name base_path)) as [h|].
  2: { split; [reflexivity | discriminate]. }
  destruct (dlsym h ("ols_get_" ++ name ++ "_driver")) as [f|].
  2: { split; [reflexivity | discriminate]. }
  destruct opt as [o|].
  2: { split; [discriminate|]. intros _ h' Hin. cbn in Hin.
       intuition discriminate. }
  destruct (dlsym h ("ols_set_" ++ name ++ "_driver_config")) as [g|].
  2: { split; [reflexivity | discriminate]. }
  destruct (as_config g o =? 0)%Z.
  - split; [discriminate|]. intros _ h' Hin. cbn in Hin.
    intuition discriminate.
  - split; [reflexivity | discriminate].
Qed.

(** X7.  Once [dlopen] has given a handle for a new name, [load_driver]
    closes the library exactly when a symbol it looks up is missing:
    the factory, or the configuration function when a configuration
    string is given.  A configuration function that refuses the string
    makes the call throw with the library left open. *)
Theorem load_driver_releases
  (name base_path : string) (opt : option string) (r : registry)
  (h : handle) :
  ~ In name (driver_names r) ->
  dlopen (driver_path name base_path) = Some h ->
  (In (call_dlclose h) (load_calls (load_driver name base_path opt r))
   <-> dlsym h ("ols_get_" ++ name ++ "_driver") = None
       \/ (opt <> None
           /\ dlsym h ("ols_set_" ++ name ++ "_driver_config") = None))
  /\ (forall (f g : symbol) (o : string),
         dlsym h ("ols_get_" ++ name ++ "_driver") = Some f ->
         opt = Some o ->
         dlsym h ("ols_set_" ++ name ++ "_driver_config") = Some g ->
         as_config g o <> 0%Z ->
         load_driver name base_path opt r
         = mk_loaded (Throw ("Failed to config driver for " ++ name)) r
             [call_dlopen (driver_path name base_path);
              call_dlsym h ("ols_get_" ++ name ++ "_driver");
              call_dlsym h ("ols_set_" ++ name ++ "_driver_config");
              call_config g o]).
Proof.
  intros Hnew Hopen.
  assert (E : existsb (String.eqb name) (driver_names r) = false).
  { destruct (existsb (String.eqb name) (driver_names r)) eqn:E;
      [|reflexivity].
    apply existsb_eqb_In in E. contradiction. }
  unfold load_driver. rewrite E, Hopen. split.
  - destruct (dlsym h ("ols_get_" ++ name ++ "_driver")) as [f|].
    2: { cbn. split; [now left | tauto]. }
    destruct opt as [o|].
    2: { cbn. split; [intuition discriminate|].
         intros [?|[? _]]; [discriminate | congruence]. }
    destruct (dlsym h ("ols_set_" ++ name ++ "_driver_config")) as [g|].
    2: { cbn. split; [right; split; [discriminate | reflexivity] | tauto]. }
    destruct (as_config g o =? 0)%Z; cbn;
      (split; [intuition discriminate|]);
      intros [?|[_ ?]]; discriminate.
  - intros f g o Hf -> Hg Hrefuse. rewrite Hf, Hg.
    apply Z.eqb_neq in Hrefuse. now rewrite Hrefuse.
Qed.

Lemma load_driver_keeps_aligned
  (name base_path : string) (opt : option string) (r : registry) :
  aligned r -> NoDup (driver_names r) ->
  aligned (load_registry (load_driver name base_path opt r))
  /\ NoDup (driver_names (load_registry (load_driver name base_path opt r)))
  /\ incl (driver_names (load_registry (load_driver name base_path opt r)))
          (name :: driver_names r).
Proof.
  intros Hal Hnd. unfold load_driver.
  destruct (existsb (String.eqb name) (driver_names r)) eqn:E.
  { repeat split; try assumption. now apply incl_tl, incl_refl. }
  assert (Hnew : ~ In name (driver_names r)).
  { intro Hin. apply existsb_eqb_In in Hin. congruence. }
  assert (Hkeep : aligned r /\ NoDup (driver_names r)
                  /\ incl (driver_names r) (name :: driver_names r))
    by (repeat split; try assumption; now apply incl_tl, incl_refl).
  destruct (dlopen (driver_path name base_path)) as [h|] eqn:Eh;
    [|exact Hkeep].
  destruct (dlsym h ("ols_get_" ++ name ++ "_driver")) as [f|] eqn:Ef;
    [|exact Hkeep].
  assert (Hins : aligned (mk_registry (name :: driver_names r)
                            (as_generator f :: driver_calls r))
                 /\ NoDup (name :: driver_names r)
                 /\ incl (name :: driver_names r) (name :: driver_names r)).
  { repeat split.
    - constructor; [|exact Hal]. now exists base_path, h, f.
    - now constructor.
    - apply incl_refl. }
  destruct opt as [o|]; [|exact Hins].
  destruct (dlsym h ("ols_set_" ++ name ++ "_driver_config")) as [g|];
    [|exact Hkeep].
  destruct (as_config g o =? 0)%Z; [exact Hins | exact Hkeep].
Qed.

Lemma load_all_keeps_aligned (reqs : list load_request) :
  forall r : registry,
    aligned r -> NoDup (driver_names r) ->
    aligned (load_all reqs r)
    /\ NoDup (driver_names (load_all reqs r))
    /\ incl (driver_names (load_all reqs r))
            (map req_name reqs ++ driver_names r).
Proof.
  induction reqs as [|q reqs IH]; intros r Hal Hnd; cbn [load_all map].
  - repeat split; try assumption. apply incl_refl.
  - destruct (@load_driver_keeps_aligned (req_name q) (req_base_path q)
                (req_opt q) r Hal Hnd) as (Hal' & Hnd' & Hincl').
    destruct (IH _ Hal' Hnd') as (Hal'' & Hnd'' & Hincl'').
    repeat split; try assumption.
    intros x Hx. apply Hincl'' in Hx. apply in_app_or in Hx.
    destruct Hx as [Hx|Hx].
    + right. apply in_or_app. now left.
    + apply Hincl' in Hx. destruct Hx as [<-|Hx]; [now left|].
      right. apply in_or_app. now right.
Qed.

(** X8.  Whatever sequence of [load_driver] calls is made from program
    start, failing calls included: the two vectors have the same
    length; the factory at each index is the one resolved from a
    library named after the name at that index; no name is registered
    twice; and every registered name is one that was asked for. *)
Theorem registry_invariant (reqs : list load_request) :
  let r := load_all reqs no_drivers in
  List.length (driver_names r) = List.length (driver_calls r)
  /\ aligned r
  /\ NoDup (driver_names r)
  /\ incl (drivers r) (map req_name reqs).
Proof.
  intro r.
  destruct (@load_all_keeps_aligned reqs no_drivers) as (Hal & Hnd & Hincl).
  - constructor.
  - constructor.
  - fold r in Hal, Hnd, Hincl. cbn in Hincl. rewrite app_nil_r in Hincl.
    repeat split; try assumption.
    apply (Forall2_length Hal).
Qed.

(** X9.  With fewer than [2^31] drivers registered, [get] on an [int]
    that is negative or not below the number of drivers throws "Invalid
    driver id" whatever the factories are; on an id in range it calls
    the factory at that index, returns the driver or throws "Failed to
    load camera" with the id when the factory returns null. *)
Theorem get_bounds (id external_option : Z) (r : registry) :
  (- 2 ^ 31 <= id < 2 ^ 31)%Z ->
  (Z.of_nat (List.length (driver_calls r)) < 2 ^ 31)%Z ->
  ((id < 0 \/ Z.of_nat (List.length (driver_calls r)) <= id)%Z ->
   get id external_option r = Throw "Invalid driver id")
  /\ ((0 <= id < Z.of_nat (List.length (driver_calls r)))%Z ->
      exists factory : cam_generator_ptr_type,
        nth_error (driver_calls r) (Z.to_nat id) = Some factory
        /\ get id external_option r
           = match factory external_option with
             | Some d => Ok d
             | None => Throw ("Failed to load camera " ++ to_string id)
             end).
Proof.
  intros Hid Hlen. unfold get, to_unsigned. split.
  - intro Hout.
    assert (E : (id mod 2 ^ 32
                 >=? Z.of_nat (List.length (driver_calls r)))%Z = true).
    { rewrite Z.geb_leb. apply Z.leb_le. destruct Hout as [Hneg|Hbig].
      - replace id with (id + 2 ^ 32 + (-1) * 2 ^ 32)%Z by ring.
        rewrite Z_mod_plus_full, Z.mod_small; lia.
      - rewrite Z.mod_small; lia. }
    now rewrite E.
  - intro Hin.
    assert (E : (id mod 2 ^ 32
                 >=? Z.of_nat (List.length (driver_calls r)))%Z = false).
    { rewrite Z.geb_leb. apply Z.leb_gt. rewrite Z.mod_small; lia. }
    rewrite E.
    destruct (nth_error (driver_calls r) (Z.to_nat id)) as [factory|] eqn:En.
    + exists factory. split; reflexivity.
    + apply nth_error_None in En. lia.
Qed.

(** X10.  Driver ids are not stable across loads: a successful load of
    a new name puts it at id 0 and moves every driver registered
    before from its id to the next one, so that an id that gave a
    driver before the load gives the same driver at the next id after
    it. *)
Theorem load_driver_shifts_ids
  (name base_path : string) (opt : option string) (r : registry) :
  ~ In name (driver_names r) ->
  load_result (load_driver name base_path opt r) = Ok tt ->
  let r' := load_registry (load_driver name base_path opt r) in
  nth_error (drivers r') 0 = Some name
  /\ (forall i : nat,
         nth_error (drivers r') (S i) = nth_error (drivers r) i
         /\ nth_error (driver_calls r') (S i) = nth_error (driver_calls r) i)
  /\ (forall (id external_option : Z) (d : CameraDriver),
         (0 <= id < 2 ^ 31)%Z ->
         (Z.of_nat (List.length (driver_calls r)) < 2 ^ 31 - 1)%Z ->
         get id external_option r = Ok d ->
         get (id + 1) external_option r' = Ok d).
Proof.
  intros Hnew Hok r'.
  destruct (@load_driver_new _ name base_path opt r Hnew Hok)
    as (h & f & _ & _ & E).
  fold r' in E. rewrite E. cbn [drivers driver_names driver_calls nth_error].
  split; [reflexivity|]. split; [intro i; split; reflexivity|].
  intros id external_option d Hid Hlen Hget.
  unfold get, to_unsigned in *. cbn [driver_calls List.length].
  destruct (id mod 2 ^ 32 >=? Z.of_nat (List.length (driver_calls r)))%Z
    eqn:Ein; [discriminate|].
  rewrite Z.geb_leb in Ein. apply Z.leb_gt in Ein.
  assert (Hsmall : (id < Z.of_nat (List.length (driver_calls r)))%Z).
  { rewrite Z.mod_small in Ein; lia. }
  assert (E' : ((id + 1) mod 2 ^ 32
                >=? Z.of_nat (S (List.length (driver_calls r))))%Z = false).
  { rewrite Z.geb_leb. apply Z.leb_gt. rewrite Z.mod_small; lia. }
  rewrite E'.
  replace (Z.to_nat (id + 1)) with (S (Z.to_nat id)) by lia.
  cbn [nth_error].
  destruct (nth_error (driver_calls r) (Z.to_nat id)) as [factory|];
    [|discriminate].
  destruct (factory external_option) as [d'|]; [exact Hget | discriminate].
Qed.

End MoreRegistryProperties.

Section MoreRegistryExamples.

Import Camera Sample.

Local Open Scope string_scope.

Lemma load_driver_failure_witness :
  load_driver (H := picky_linker) "missing" "" None no_drivers
  = mk_loaded (Throw "Failed to load driver missing") no_drivers
      [call_dlopen (H := picky_linker) "libols_driver_missing.so"]
  /\ load_registry (load_driver (H := picky_linker) "missing" "" None
                      picky_a)
     = picky_a
  /\ ~ In (call_dlclose (H := picky_linker) "/opt/libols_driver_a.so")
          (load_calls
             (load_driver (H := picky_linker) "a" "/opt" None no_drivers)).
Proof.
  split; [reflexivity|]. split.
  - apply (proj1 (@load_driver_failure picky_linker "missing" "" None
                    picky_a)
             "Failed to load driver missing").
    reflexivity.
  - apply (proj2 (@load_driver_failure picky_linker "a" "/opt" None
                    no_drivers)).
    reflexivity.
Defined.

Lemma load_driver_releases_witness :
  In (call_dlclose (H := picky_linker) "libols_driver_noconfig.so")
     (load_calls
        (load_driver (H := picky_linker) "noconfig" "" (Some "x")
           no_drivers))
  /\ load_driver (H := picky_linker) "a" "" (Some "bad") no_drivers
     = mk_loaded (Throw "Failed to config driver for a") no_drivers
         [call_dlopen (H := picky_linker) "libols_driver_a.so";
          call_dlsym (H := picky_linker) "libols_driver_a.so"
            "ols_get_a_driver";
          call_dlsym (H := picky_linker) "libols_driver_a.so"
            "ols_set_a_driver_config";
          call_config (H := picky_linker) "ols_set_a_driver_config" "bad"].
Proof.
  split.
  - destruct (@load_driver_releases picky_linker "noconfig" "" (Some "x")
                no_drivers "libols_driver_noconfig.so")
      as [Hiff _]; [cbn; tauto | reflexivity |].
    apply Hiff. right. split; [discriminate | reflexivity].
  - destruct (@load_driver_releases picky_linker "a" "" (Some "bad")
                no_drivers "libols_driver_a.so")
      as [_ Hrefused]; [cbn; tauto | reflexivity |].
    apply (Hrefused "ols_get_a_driver" "ols_set_a_driver_config" "bad");
      try reflexivity.
    cbn. discriminate.
Defined.

Lemma get_bounds_witness :
  get (-1) 7 loaded_abc = Throw "Invalid driver id"
  /\ get 3 7 loaded_abc = Throw "Invalid driver id"
  /\ exists factory : cam_generator_ptr_type (H := linker),
      nth_error (driver_calls loaded_abc) 1 = Some factory
      /\ get 1 7 loaded_abc
         = match factory 7%Z with
           | Some d => Ok d
           | None => Throw ("Failed to load camera " ++ to_string 1)
           end.
Proof.
  assert (Hlen : (Z.of_nat (List.length (driver_calls loaded_abc))
                  < 2 ^ 31)%Z) by (cbn; lia).
  split; [|split].
  - apply (proj1 (@get_bounds linker (-1) 7 loaded_abc ltac:(lia) Hlen)).
    left. lia.
  - apply (proj1 (@get_bounds linker 3 7 loaded_abc ltac:(lia) Hlen)).
    right. cbn. lia.
  - apply (proj2 (@get_bounds linker 1 7 loaded_abc ltac:(lia) Hlen)).
    cbn. lia.
Defined.

Lemma load_driver_shifts_ids_witness :
  nth_error
    (drivers (load_registry
                (load_driver (H := linker) "d" "" None loaded_abc))) 0
  = Some "d"
  /\ get 1 7 (load_registry
                (load_driver (H := linker) "d" "" None loaded_abc))
     = Ok ("ols_get_c_driver", 7%Z).
Proof.
  destruct (@load_driver_shifts_ids linker "d" "" None loaded_abc)
    as (Hzero & _ & Hshift);
    [cbn; intuition discriminate | reflexivity |].
  split; [exact Hzero|].
  apply (Hshift 0%Z 7%Z); [lia | cbn; lia | reflexivity].
Defined.

End MoreRegistryExamples.


(* ================================================================= *)
(** * Further properties of the frame dispatch stage *)
(* ================================================================= *)

Section MoreStageProperties.

Import Camera Video.

Local Open Scope string_scope.
Local Open Scope Z_scope.

Context `{Externals}.

(** ** Subsequences *)

Lemma subseq_refl {A : Type} (l : list A) : subseq l l.
Proof. induction l; constructor; assumption. Qed.

Lemma subseq_nil_l {A : Type} (l : list A) : subseq [] l.
Proof. induction l; constructor; assumption. Qed.

Lemma subseq_app {A : Type} (l1 l1' l2 l2' : list A) :
  subseq l1 l1' -> subseq l2 l2' -> subseq (l1 ++ l2) (l1' ++ l2').
Proof.
  intros H1 H2. induction H1; cbn.
  - exact H2.
  - now constructor.
  - now constructor.
Qed.

Lemma subseq_In {A : Type} (l l' : list A) (x : A) :
  subseq l l' -> In x l -> In x l'.
Proof.
  intro Hs. induction Hs; cbn; intro Hin.
  - exact Hin.
  - right. auto.
  - destruct Hin as [<-|Hin]; [now left | right; auto].
Qed.

Lemma controls_app (l1 l2 : list QueueData) :
  controls (l1 ++ l2) = (controls l1 ++ controls l2)%list.
Proof.
  induction l1 as [|m l1 IH]; cbn; [reflexivity|].
  destruct m; cbn; now rewrite IH.
Qed.

Lemma controls_frames (l : list QueueData) :
  forallb is_frame l = true -> controls l = [].
Proof.
  induction l as [|m l IH]; cbn; [reflexivity|].
  destruct m; cbn; try discriminate. exact IH.
Qed.

(** ** What is pushed, step by step *)

Lemma appended_trans (q q' q'' : queue_type) (l1 l2 : list QueueData) :
  appended q q' l1 -> appended q' q'' l2 -> appended q q'' (l1 ++ l2).
Proof.
  unfold appended. intros E1 E2. now rewrite E2, E1, app_assoc.
Qed.

Lemma plate_appended_trans (p p' p'' : option queue_type)
  (l1 l2 : list QueueData) :
  plate_appended p p' l1 -> plate_appended p' p'' l2 ->
  plate_appended p p'' (l1 ++ l2).
Proof.
  destruct p as [q|], p' as [q'|], p'' as [q''|]; cbn; try tauto.
  - apply appended_trans.
  - now intros -> ->.
Qed.

Lemma pushed_between_trans (g g' g'' : VideoGenerator)
  (ll1 ls1 ld1 lp1 ll2 ls2 ld2 lp2 : list QueueData) :
  pushed_between g g' ll1 ls1 ld1 lp1 ->
  pushed_between g' g'' ll2 ls2 ld2 lp2 ->
  pushed_between g g'' (ll1 ++ ll2) (ls1 ++ ls2) (ld1 ++ ld2) (lp1 ++ lp2).
Proof.
  intros (A1 & B1 & C1 & D1) (A2 & B2 & C2 & D2). repeat split.
  - eapply appended_trans; eassumption.
  - eapply appended_trans; eassumption.
  - eapply appended_trans; eassumption.
  - eapply plate_appended_trans; eassumption.
Qed.

Lemma pushed_between_nothing (g g' : VideoGenerator) :
  same_outputs g g' -> pushed_between g g' [] [] [] [].
Proof.
  intros (A & B & C & D). unfold pushed_between, appended.
  rewrite A, B, C, D, !app_nil_r. repeat split.
  destruct (plate_solving_out_ g); cbn; [|reflexivity].
  unfold appended. now rewrite app_nil_r.
Qed.

Lemma well_routed_app (ll1 ls1 ld1 lp1 ll2 ls2 ld2 lp2 : list QueueData)
  (cs1 cs2 : list StackerControl) :
  well_routed ll1 ls1 ld1 lp1 cs1 ->
  well_routed ll2 ls2 ld2 lp2 cs2 ->
  well_routed (ll1 ++ ll2) (ls1 ++ ls2) (ld1 ++ ld2) (lp1 ++ lp2)
    (cs1 ++ cs2).
Proof.
  intros (A1 & B1 & C1 & D1 & E1 & F1 & G1 & H1)
         (A2 & B2 & C2 & D2 & E2 & F2 & G2 & H2).
  unfold well_routed. rewrite !controls_app, forallb_app.
  rewrite D1, D2, E1, E2, F1, F2, G1, G2.
  repeat split; try (now apply subseq_app).
  intro Hin. apply in_app_or in Hin. tauto.
Qed.

Lemma well_routed_nothing : well_routed [] [] [] [] [].
Proof.
  unfold well_routed. repeat split; try apply subseq_refl. intros [].
Qed.

(** One frame: dropped, or pushed to the live output and to some of
    the other three. *)
Lemma process_frame_routes (frame : CameraFrame) (this : VideoGenerator) :
  exists ll ls ld lp : list QueueData,
    pushed_between this (process_frame frame this) ll ls ld lp
    /\ well_routed ll ls ld lp [].
Proof.
  assert (Hdrop :
    forall g', same_outputs this g' ->
      exists ll ls ld lp : list QueueData,
        pushed_between this g' ll ls ld lp /\ well_routed ll ls ld lp []).
  { intros g' Hsame. exists [], [], [], [].
    split; [now apply pushed_between_nothing | apply well_routed_nothing]. }
  unfold process_frame.
  destruct (bytes_per_pixel (format (frame_format frame))) as [bpp|];
    [|apply Hdrop; repeat split].
  destruct (size_mismatch frame bpp); [apply Hdrop; repeat split|].
  destruct (convert this bpp frame) as [logged [frame'|]];
    rewrite log_all; [|apply Hdrop; repeat split].
  exists [frame_data frame'],
    (if stacking_active_ this then [frame_data frame'] else []),
    (if debug_active_ this && stacking_active_ this
     then [frame_data frame'] else []),
    (if not_null (plate_solving_out_ this)
        && negb (stacking_in_process_ this)
     then [frame_data frame'] else []).
  destruct this as [dq so lo dbg [ps|] [|] [|] [|] lg];
    cbn; unfold pushed_between, well_routed, appended; cbn;
    rewrite ?app_nil_r;
    repeat split; try reflexivity;
    try apply subseq_refl; try apply subseq_nil_l;
    try (intros [E|[]]; discriminate E);
    unfold appended; now rewrite app_nil_r.
Qed.

Lemma control_routes (ctl : StackerControl) (this : VideoGenerator) :
  pushed_between this (control ctl this)
    [control_data ctl] [control_data ctl] [control_data ctl] []
  /\ well_routed [control_data ctl] [control_data ctl] [control_data ctl] []
       [ctl].
Proof.
  split.
  - unfold control, pushed_between, appended.
    destruct (op ctl); cbn; repeat split;
      destruct (plate_solving_out_ this); cbn; unfold appended;
      rewrite ?app_nil_r; reflexivity.
  - unfold well_routed. cbn. repeat split;
      try apply subseq_refl; try apply subseq_nil_l.
    intros [E|[]]; discriminate E.
Qed.

Lemma stop_routes (this : VideoGenerator) :
  pushed_between this (stop this)
    [shutdown_data] [shutdown_data] [shutdown_data] []
  /\ well_routed [shutdown_data] [shutdown_data] [shutdown_data] [] [].
Proof.
  split.
  - unfold stop, pushed_between, appended. cbn. repeat split.
    destruct (plate_solving_out_ this); cbn; unfold appended;
      rewrite ?app_nil_r; reflexivity.
  - unfold well_routed. cbn. repeat split;
      try apply subseq_refl; try apply subseq_nil_l.
    intros [E|[]]; discriminate E.
Qed.

(** The whole loop. *)
Lemma run_loop_routes (msgs : list QueueData) :
  forall this : VideoGenerator,
  exists ll ls ld lp : list QueueData,
    pushed_between this (generator_of (run_loop msgs this)) ll ls ld lp
    /\ well_routed ll ls ld lp (controls (until_shutdown msgs)).
Proof.
  induction msgs as [|m rest IH]; intro this.
  - exists [], [], [], []. split;
      [apply pushed_between_nothing; repeat split
      | apply well_routed_nothing].
  - destruct m as [|f|c|]; cbn [run_loop until_shutdown controls generator_of].
    + exists [shutdown_data], [shutdown_data], [shutdown_data], [].
      exact (stop_routes (set_data_queue (Queue.Build rest) this)).
    + destruct (process_frame_routes f
                  (set_data_queue (Queue.Build rest) this))
        as (ll1 & ls1 & ld1 & lp1 & P1 & R1).
      destruct (IH (process_frame f (set_data_queue (Queue.Build rest) this)))
        as (ll2 & ls2 & ld2 & lp2 & P2 & R2).
      exists (ll1 ++ ll2)%list, (ls1 ++ ls2)%list, (ld1 ++ ld2)%list,
        (lp1 ++ lp2)%list.
      split.
      * eapply pushed_between_trans; eassumption.
      * apply (well_routed_app R1 R2).
    + destruct (control_routes c (set_data_queue (Queue.Build rest) this))
        as (P1 & R1).
      destruct (IH (control c (set_data_queue (Queue.Build rest) this)))
        as (ll2 & ls2 & ld2 & lp2 & P2 & R2).
      exists ([control_data c] ++ ll2)%list, ([control_data c] ++ ls2)%list,
        ([control_data c] ++ ld2)%list, ([] ++ lp2)%list.
      split.
      * eapply pushed_between_trans; eassumption.
      * apply (well_routed_app R1 R2).
    + apply (IH (BOOSTER_ERROR "Invalid data for video generator"
                   (set_data_queue (Queue.Build rest) this))).
Qed.

(** ** What reaches the outputs *)

(** X11.  Whatever the input and the state the loop starts in, the
    stage only appends to its four outputs, and the outputs are nested:
    what it pushes to the stacking output is a subsequence of what it
    pushes to the live output, what it pushes to the debug output is a
    subsequence of what it pushes to the stacking output, and what it
    pushes to the plate solving output is a subsequence of what it
    pushes to the live output. *)
Theorem outputs_nested (msgs : list QueueData) (this : VideoGenerator) :
  exists ll ls ld lp : list QueueData,
    pushed_between this (generator_of (run_loop msgs this)) ll ls ld lp
    /\ subseq ls ll
    /\ subseq ld ls
    /\ subseq lp ll.
Proof.
  destruct (run_loop_routes msgs this)
    as (ll & ls & ld & lp & P & A & B & C & _).
  exists ll, ls, ld, lp. auto.
Qed.

(** X12.  The control messages the loop pops (those before the first
    sentinel) reach the live, the stacking and the debug output all,
    once each and in the order they were queued, whatever frames are
    dropped or forwarded between them; none reaches the plate solving
    output. *)
Theorem controls_forwarded_in_order
  (msgs : list QueueData) (this : VideoGenerator) :
  exists ll ls ld lp : list QueueData,
    pushed_between this (generator_of (run_loop msgs this)) ll ls ld lp
    /\ controls ll = controls (until_shutdown msgs)
    /\ controls ls = controls (until_shutdown msgs)
    /\ controls ld = controls (until_shutdown msgs)
    /\ controls lp = [].
Proof.
  destruct (run_loop_routes msgs this)
    as (ll & ls & ld & lp & P & _ & _ & _ & Hf & A & B & C & _).
  exists ll, ls, ld, lp.
  split; [exact P|]. split; [exact A|]. split; [exact B|].
  split; [exact C|]. now apply controls_frames.
Qed.

(** X13.  A message that is neither a sentinel, a frame nor a control
    message is forwarded to no output, and the plate solving output
    receives frames only: no control message and no sentinel. *)
Theorem unknown_messages_not_forwarded
  (msgs : list QueueData) (this : VideoGenerator) :
  exists ll ls ld lp : list QueueData,
    pushed_between this (generator_of (run_loop msgs this)) ll ls ld lp
    /\ ~ In other_data ll
    /\ ~ In other_data ls
    /\ ~ In other_data ld
    /\ forallb is_frame lp = true.
Proof.
  destruct (run_loop_routes msgs this)
    as (ll & ls & ld & lp & P & A & B & _ & Hf & _ & _ & _ & Hn).
  exists ll, ls, ld, lp.
  split; [exact P|]. split; [exact Hn|]. split; [|split; [|exact Hf]].
  - intro Hin. apply Hn. eapply subseq_In; eassumption.
  - intro Hin. apply Hn. eapply subseq_In; [exact A|].
    eapply subseq_In; eassumption.
Qed.

(** ** The session state along the input *)

Lemma control_flags (ctl : StackerControl) (this : VideoGenerator) :
  flags (control ctl this)
  = transition_table (op ctl) (save_inputs ctl) (flags this).
Proof. unfold control. destruct (op ctl); reflexivity. Qed.

Lemma run_loop_flags (msgs : list QueueData) :
  forall this : VideoGenerator,
    flags (generator_of (run_loop msgs this))
    = session_after (controls (until_shutdown msgs)) (flags this).
Proof.
  induction msgs as [|m rest IH]; intro this; [reflexivity|].
  destruct m as [|f|c|];
    cbn [run_loop until_shutdown controls generator_of session_after
         fold_left].
  - reflexivity.
  - rewrite IH.
    destruct (process_frame_keeps f (set_data_queue (Queue.Build rest) this))
      as (-> & _).
    reflexivity.
  - rewrite IH, control_flags. reflexivity.
  - rewrite IH. reflexivity.
Qed.

(** X14.  The three flags after the loop has worked through an input
    are the transition table folded over the control messages popped,
    in order: frames, unknown messages and everything behind the first
    sentinel have no influence.  In particular two inputs with the same
    control messages before the sentinel leave the same flags. *)
Theorem session_state_after_run :
  (forall (msgs : list QueueData) (this : VideoGenerator),
      flags (generator_of (run_loop msgs this))
      = session_after (controls (until_shutdown msgs)) (flags this))
  /\ (forall (msgs msgs' : list QueueData) (this : VideoGenerator),
         controls (until_shutdown msgs) = controls (until_shutdown msgs') ->
         flags (generator_of (run_loop msgs this))
         = flags (generator_of (run_loop msgs' this))).
Proof.
  split.
  - intros msgs this. apply run_loop_flags.
  - intros msgs msgs' this E. now rewrite !run_loop_flags, E.
Qed.

Lemma session_after_debug (cs : list StackerControl) :
  forall s : bool * bool * bool,
    forallb (fun c => negb (is_init c)) cs = true ->
    snd (session_after cs s) = snd s.
Proof.
  induction cs as [|c cs IH]; intros s Hcs; [reflexivity|].
  cbn in Hcs. apply andb_true_iff in Hcs. destruct Hcs as [Hc Hcs].
  unfold session_after in *. cbn [fold_left]. rewrite IH by assumption.
  destruct s as [[a p] d]. unfold is_init in Hc.
  destruct (op c); cbn in *; (reflexivity || discriminate).
Qed.

(** X15.  [debug_active_] is the flag carried by the last [init]
    popped: an input without [init] before the sentinel leaves it as it
    was, and after an [init] followed by other operations only it is
    that [init]'s [save_inputs], whatever pause, resume, save, cancel
    or update comes later. *)
Theorem debug_flag_is_last_init
  (msgs : list QueueData) (this : VideoGenerator) :
  (forallb (fun c => negb (is_init c)) (controls (until_shutdown msgs))
   = true ->
   debug_active_ (generator_of (run_loop msgs this)) = debug_active_ this)
  /\ (forall (before after : list StackerControl) (c : StackerControl),
         controls (until_shutdown msgs) = (before ++ c :: after)%list ->
         is_init c = true ->
         forallb (fun c => negb (is_init c)) after = true ->
         debug_active_ (generator_of (run_loop msgs this)) = save_inputs c).
Proof.
  assert (Hd : forall g : VideoGenerator, debug_active_ g = snd (flags g))
    by reflexivity.
  split.
  - intro Hno. rewrite !Hd, run_loop_flags. now apply session_after_debug.
  - intros before after c E Hinit Hafter.
    rewrite Hd, run_loop_flags, E. unfold session_after.
    rewrite fold_left_app. cbn [fold_left].
    fold (session_after after
            (transition_table (op c) (save_inputs c)
               (fold_left
                  (fun s c0 => transition_table (op c0) (save_inputs c0) s)
                  before (flags this)))).
    rewrite session_after_debug by assumption.
    unfold is_init in Hinit.
    destruct (fold_left _ before (flags this)) as [[a p] d].
    destruct (op c); (discriminate || reflexivity).
Qed.

(** X16.  While a session is in process no frame reaches the plate
    solving output: if [stacking_in_process_] holds and the control
    messages popped contain neither [save] nor [cancel], the plate
    solving output is after the loop what it was before, whatever
    frames came. *)
Theorem no_plate_solving_during_session (msgs : list QueueData) :
  forall this : VideoGenerator,
    stacking_in_process_ this = true ->
    forallb (fun c => negb (ends_session c)) (controls (until_shutdown msgs))
    = true ->
    plate_solving_out_ (generator_of (run_loop msgs this))
    = plate_solving_out_ this
    /\ stacking_in_process_ (generator_of (run_loop msgs this)) = true.
Proof.
  induction msgs as [|m rest IH]; intros this Hin Hcs; [now split|].
  destruct m as [|f|c|];
    cbn [run_loop until_shutdown controls generator_of forallb] in *.
  - now split.
  - destruct (process_frame_keeps f (set_data_queue (Queue.Build rest) this))
      as (Hflags & _).
    assert (Hin' : stacking_in_process_
                     (process_frame f
                        (set_data_queue (Queue.Build rest) this)) = true).
    { unfold flags in Hflags. injection Hflags as _ -> _. exact Hin. }
    destruct (IH _ Hin' Hcs) as (-> & ->). split; [|reflexivity].
    clear IH Hin' Hflags. unfold process_frame.
    destruct (bytes_per_pixel (format (frame_format f))) as [bpp|];
      [|reflexivity].
    destruct (size_mismatch f bpp); [reflexivity|].
    rewrite convert_set_data_queue.
    destruct (convert this bpp f) as [logged [frame'|]];
      rewrite log_all; [|reflexivity].
    destruct this as [dq so lo dbg [ps|] [|] [|] [|] lg];
      cbn in *; (reflexivity || discriminate).
  - apply andb_true_iff in Hcs. destruct Hcs as [Hc Hcs].
    assert (Hin' : stacking_in_process_
                     (control c (set_data_queue (Queue.Build rest) this))
                   = true).
    { unfold control, ends_session in *.
      destruct (op c); cbn in *; (reflexivity || discriminate || exact Hin). }
    destruct (IH _ Hin' Hcs) as (-> & ->). split; [|reflexivity].
    unfold control. destruct (op c); reflexivity.
  - apply (IH (BOOSTER_ERROR "Invalid data for video generator"
                 (set_data_queue (Queue.Build rest) this)) Hin Hcs).
Qed.

(** X17.  While stacking is not active no frame reaches the stacking
    or the debug output: if [stacking_active_] does not hold and the
    control messages popped contain neither [init] nor [resume], every
    message pushed to these two outputs is a control message or the
    sentinel. *)
Theorem no_frames_stacked_while_inactive (msgs : list QueueData) :
  forall this : VideoGenerator,
    stacking_active_ this = false ->
    forallb (fun c => negb (activates c)) (controls (until_shutdown msgs))
    = true ->
    exists ls ld : list QueueData,
      appended (stack_out_ this)
        (stack_out_ (generator_of (run_loop msgs this))) ls
      /\ appended (debug_out_ this)
           (debug_out_ (generator_of (run_loop msgs this))) ld
      /\ forallb (fun m => negb (is_frame m)) ls = true
      /\ forallb (fun m => negb (is_frame m)) ld = true.
Proof.
  assert (Hnil : forall q : queue_type, appended q q [])
    by (intro q; unfold appended; now rewrite app_nil_r).
  induction msgs as [|m rest IH]; intros this Hoff Hcs.
  { exists [], []. repeat split; apply Hnil. }
  destruct m as [|f|c|];
    cbn [run_loop until_shutdown controls generator_of forallb] in *.
  - exists [shutdown_data], [shutdown_data]. repeat split.
  - destruct (process_frame_keeps f (set_data_queue (Queue.Build rest) this))
      as (Hflags & _).
    assert (Hoff' : stacking_active_
                      (process_frame f
                         (set_data_queue (Queue.Build rest) this)) = false).
    { unfold flags in Hflags. injection Hflags as -> _ _. exact Hoff. }
    destruct (IH _ Hoff' Hcs) as (ls & ld & A & B & Fs & Fd).
    exists ls, ld. repeat split; try assumption.
    + replace (stack_out_ this)
        with (stack_out_ (process_frame f
                            (set_data_queue (Queue.Build rest) this)));
        [exact A|].
      clear - Hoff. unfold process_frame.
      destruct (bytes_per_pixel (format (frame_format f))) as [bpp|];
        [|reflexivity].
      destruct (size_mismatch f bpp); [reflexivity|].
      rewrite convert_set_data_queue.
      destruct (convert this bpp f) as [logged [frame'|]];
        rewrite log_all; [|reflexivity].
      destruct this as [dq so lo dbg [ps|] [|] [|] [|] lg];
        cbn in *; (reflexivity || discriminate).
    + replace (debug_out_ this)
        with (debug_out_ (process_frame f
                            (set_data_queue (Queue.Build rest) this)));
        [exact B|].
      clear - Hoff. unfold process_frame.
      destruct (bytes_per_pixel (format (frame_format f))) as [bpp|];
        [|reflexivity].
      destruct (size_mismatch f bpp); [reflexivity|].
      rewrite convert_set_data_queue.
      destruct (convert this bpp f) as [logged [frame'|]];
        rewrite log_all; [|reflexivity].
      destruct this as [dq so lo dbg [ps|] [|] [|] [|] lg];
        cbn in *; (reflexivity || discriminate).
  - apply andb_true_iff in Hcs. destruct Hcs as [Hc Hcs].
    assert (Hoff' : stacking_active_
                      (control c (set_data_queue (Queue.Build rest) this))
                    = false).
    { unfold control, activates in *.
      destruct (op c); cbn in *; (reflexivity || discriminate || exact Hoff). }
    destruct (IH _ Hoff' Hcs) as (ls & ld & A & B & Fs & Fd).
    exists (control_data c :: ls), (control_data c :: ld).
    destruct (control_routes c (set_data_queue (Queue.Build rest) this))
      as ((_ & A1 & B1 & _) & _).
    repeat split; try assumption.
    + apply (appended_trans A1 A).
    + apply (appended_trans B1 B).
  - apply (IH (BOOSTER_ERROR "Invalid data for video generator"
                 (set_data_queue (Queue.Build rest) this)) Hoff Hcs).
Qed.

(** ** The frame that is forwarded *)

Lemma handle_jpeg_stack_fields (this : VideoGenerator) (fr : CameraFrame)
  (image : Mat) (copy : bool) :
  let fr' := handle_jpeg_stack this fr image copy in
  jpeg_frame fr' <> None
  /\ source_frame fr' = source_frame fr
  /\ frame_format fr' = frame_format fr
  /\ bayer fr' = bayer fr
  /\ frame_dr fr' = frame_dr fr
  /\ raw fr' = raw fr
  /\ frame fr'
     = (if stacking_active_ this || not_null (plate_solving_out_ this)
        then if copy then clone image else image
        else frame fr).
Proof.
  unfold handle_jpeg_stack.
  destruct (stacking_active_ this || not_null (plate_solving_out_ this));
    destruct copy; cbn; repeat split; discriminate.
Qed.

(** What passing format processing gives. *)
Lemma converted_cases (this : VideoGenerator) (frame frame' : CameraFrame) :
  passes this frame frame' ->
  exists (bpp : Z) (logged : list string),
    bytes_per_pixel (format (frame_format frame)) = Some bpp
    /\ convert this bpp frame = (logged, Some frame').
Proof. intros (bpp & logged & Hb & _ & Hc). now exists bpp, logged. Qed.

(** X18.  Every frame that is forwarded carries a JPEG rendition, and
    the format descriptor, the Bayer tag and the source buffer it came
    with; for every format but mjpeg its dynamic range is 65535 for the
    16 bit formats (rgb48, raw16, mono16) and 255 for the others. *)
Theorem forwarded_frame_shape
  (this : VideoGenerator) (frame frame' : CameraFrame) :
  passes this frame frame' ->
  jpeg_frame frame' <> None
  /\ source_frame frame' = source_frame frame
  /\ frame_format frame' = frame_format frame
  /\ bayer frame' = bayer frame
  /\ (format (frame_format frame) <> stream_mjpeg ->
      frame_dr frame'
      = match format (frame_format frame) with
        | stream_rgb48 | stream_raw16 | stream_mono16 => 65535
        | _ => 255
        end).
Proof.
  intro Hp. destruct (converted_cases Hp) as (bpp & logged & Hb & Hc).
  unfold convert in Hc.
  destruct (format (frame_format frame)); cbn in Hb; inversion Hb; subst bpp;
    cbn in Hc.
  - (* yuv2 *)
    injection Hc as _ <-.
    destruct (handle_jpeg_stack_fields this
                (set_raw (Mat_of (height (frame_format frame))
                            (width (frame_format frame)) CV_8UC2
                            (source_frame frame))
                   (set_frame_dr 255 frame))
                (cvtColor (Mat_of (height (frame_format frame))
                             (width (frame_format frame)) CV_8UC2
                             (source_frame frame)) COLOR_YUV2BGR_YUYV) false)
      as (J & S & F & B & D & _).
    rewrite S, F, B, D. repeat split; assumption.
  - (* mjpeg *)
    destruct (stacking_active_ this || not_null (plate_solving_out_ this)).
    + destruct (imdecode _); [|discriminate].
      injection Hc as _ <-. cbn. repeat split; try discriminate;
        try (intro E; now elim E).
    + injection Hc as _ <-. cbn. repeat split; try discriminate;
        try (intro E; now elim E).
  - (* rgb24 *)
    injection Hc as _ <-.
    destruct (handle_jpeg_stack_fields this
                (set_raw (Mat_of (height (frame_format frame))
                            (width (frame_format frame)) CV_8UC3
                            (source_frame frame))
                   (set_frame_dr 255 frame))
                (Mat_of (height (frame_format frame))
                   (width (frame_format frame)) CV_8UC3
                   (source_frame frame)) true)
      as (J & S & F & B & D & _).
    rewrite S, F, B, D. repeat split; assumption.
  - (* rgb48 *)
    injection Hc as _ <-.
    destruct (handle_jpeg_stack_fields this
                (set_raw (Mat_of (height (frame_format frame))
                            (width (frame_format frame)) CV_16UC3
                            (source_frame frame))
                   (set_frame_dr 65535 frame))
                (Mat_of (height (frame_format frame))
                   (width (frame_format frame)) CV_16UC3
                   (source_frame frame)) false)
      as (J & S & F & B & D & _).
    rewrite S, F, B, D. repeat split; assumption.
  - (* raw8 *)
    destruct (bayer_code (bayer frame)) as [code|];
      injection Hc as _ <-; cbn;
      match goal with
      | |- context [handle_jpeg_stack ?g ?f ?i ?c] =>
          destruct (handle_jpeg_stack_fields g f i c)
            as (J & S & F & B & D & _)
      end;
      rewrite S, F, B, D; repeat split; assumption.
  - (* raw16 *)
    destruct (bayer_code (bayer frame)) as [code|];
      injection Hc as _ <-; cbn;
      match goal with
      | |- context [handle_jpeg_stack ?g ?f ?i ?c] =>
          destruct (handle_jpeg_stack_fields g f i c)
            as (J & S & F & B & D & _)
      end;
      rewrite S, F, B, D; repeat split; assumption.
  - (* mono8 *)
    injection Hc as _ <-. cbn.
    match goal with
    | |- context [handle_jpeg_stack ?g ?f ?i ?c] =>
        destruct (handle_jpeg_stack_fields g f i c)
          as (J & S & F & B & D & _)
    end.
    rewrite S, F, B, D. repeat split; assumption.
  - (* mono16 *)
    injection Hc as _ <-. cbn.
    match goal with
    | |- context [handle_jpeg_stack ?g ?f ?i ?c] =>
        destruct (handle_jpeg_stack_fields g f i c)
          as (J & S & F & B & D & _)
    end.
    rewrite S, F, B, D. repeat split; assumption.
Qed.

(** Reads the fields of the next [handle_jpeg_stack] in the goal off
    [handle_jpeg_stack_fields], with [E] deciding whether a working
    matrix is wanted. *)
Ltac jpeg_stack_fields E :=
  match goal with
  | |- context [handle_jpeg_stack ?g ?f ?i ?c] =>
      let R := fresh "R" in
      let Fm := fresh "Fm" in
      destruct (handle_jpeg_stack_fields g f i c)
        as (_ & _ & _ & _ & _ & R & Fm);
      rewrite E in Fm; cbn in R, Fm |- *; rewrite ?R, ?Fm
  end.

(** X19.  The working matrix is filled in on demand.  When stacking is
    not active and no plate solving output is registered, a forwarded
    frame has the working matrix it came with.  Otherwise the working
    matrix is: for rgb24, mono8 and mono16 a copy ([clone]) of the raw
    view; for rgb48 the raw view itself; for yuv2 and for raw frames
    with a Bayer pattern the colour conversion of the raw view; for raw
    frames without one the empty matrix; for mjpeg the decoded image,
    which is also the raw view. *)
Theorem working_matrix_on_demand
  (this : VideoGenerator) (fr fr' : CameraFrame) :
  passes this fr fr' ->
  (stacking_active_ this = false ->
   plate_solving_out_ this = None ->
   frame fr' = frame fr)
  /\ (stacking_active_ this || not_null (plate_solving_out_ this) = true ->
      match format (frame_format fr) with
      | stream_rgb24 | stream_mono8 | stream_mono16 =>
          frame fr' = clone (raw fr')
      | stream_rgb48 => frame fr' = raw fr'
      | stream_yuv2 => frame fr' = cvtColor (raw fr') COLOR_YUV2BGR_YUYV
      | stream_raw8 | stream_raw16 =>
          frame fr'
          = match bayer_code (bayer fr) with
            | Some code => cvtColor (raw fr') code
            | None => Mat_new
            end
      | stream_mjpeg =>
          frame fr' = raw fr'
          /\ imdecode (Mat_of 1 (size (source_frame fr)) CV_8UC1
                         (source_frame fr))
             = Some (frame fr')
      | stream_error => False
      end).
Proof.
  intro Hp. destruct (converted_cases Hp) as (bpp & logged & Hb & Hc).
  unfold convert in Hc.
  destruct (stacking_active_ this || not_null (plate_solving_out_ this))
    eqn:EN.
  - split.
    { intros Ha Hn. rewrite Ha, Hn in EN. discriminate EN. }
    intros _.
    destruct (format (frame_format fr)); cbn in Hb; inversion Hb; subst bpp;
      cbn in Hc.
    + injection Hc as _ <-. now jpeg_stack_fields EN.
    + destruct (imdecode _) as [m|] eqn:Em; [|discriminate].
      injection Hc as _ <-. cbn. split; [reflexivity|].
      first [exact Em | reflexivity].
    + injection Hc as _ <-. now jpeg_stack_fields EN.
    + injection Hc as _ <-. now jpeg_stack_fields EN.
    + destruct (bayer_code (bayer fr)) as [code|];
        injection Hc as _ <-; now jpeg_stack_fields EN.
    + destruct (bayer_code (bayer fr)) as [code|];
        injection Hc as _ <-; now jpeg_stack_fields EN.
    + injection Hc as _ <-. now jpeg_stack_fields EN.
    + injection Hc as _ <-. now jpeg_stack_fields EN.
  - split; [|discriminate]. intros _ _.
    destruct (format (frame_format fr)); cbn in Hb; inversion Hb; subst bpp;
      cbn in Hc.
    + injection Hc as _ <-. now jpeg_stack_fields EN.
    + injection Hc as _ <-. reflexivity.
    + injection Hc as _ <-. now jpeg_stack_fields EN.
    + injection Hc as _ <-. now jpeg_stack_fields EN.
    + destruct (bayer_code (bayer fr)) as [code|];
        injection Hc as _ <-; now jpeg_stack_fields EN.
    + destruct (bayer_code (bayer fr)) as [code|];
        injection Hc as _ <-; now jpeg_stack_fields EN.
    + injection Hc as _ <-. now jpeg_stack_fields EN.
    + injection Hc as _ <-. now jpeg_stack_fields EN.
Qed.

(** X20.  Compressed frames are never checked for size and are decoded
    on demand only.  When stacking is not active and no plate solving
    output is registered, an mjpeg frame passes whatever its buffer
    holds, with the buffer as its JPEG rendition and without a call of
    the decoder.  Otherwise the decoder is called on the buffer: when
    it throws the frame is logged and dropped, reaching no output; when
    it returns an image the frame passes with that image as working
    matrix and raw view and a dynamic range of 255. *)
Theorem mjpeg_decoded_on_demand (this : VideoGenerator) (fr : CameraFrame) :
  format (frame_format fr) = stream_mjpeg ->
  (stacking_active_ this = false ->
   plate_solving_out_ this = None ->
   passes this fr (set_jpeg_frame (Some (source_frame fr)) fr))
  /\ (stacking_active_ this || not_null (plate_solving_out_ this) = true ->
      imdecode (Mat_of 1 (size (source_frame fr)) CV_8UC1 (source_frame fr))
      = None ->
      process_frame fr this = BOOSTER_ERROR "Failed to extract jpeg" this
      /\ same_outputs this (process_frame fr this))
  /\ (forall m : Mat,
         stacking_active_ this || not_null (plate_solving_out_ this) = true ->
         imdecode (Mat_of 1 (size (source_frame fr)) CV_8UC1
                     (source_frame fr))
         = Some m ->
         passes this fr
           (set_raw m
              (set_frame_dr 255
                 (set_frame m
                    (set_jpeg_frame (Some (source_frame fr)) fr))))).
Proof.
  intro Hfmt. split; [|split].
  - intros Ha Hn. exists (-1), []. rewrite Hfmt.
    split; [reflexivity|]. split; [reflexivity|].
    unfold convert. now rewrite Hfmt, Ha, Hn.
  - intros EN Ed.
    assert (E : process_frame fr this
                = BOOSTER_ERROR "Failed to extract jpeg" this).
    { unfold process_frame, convert. rewrite Hfmt.
      cbn [bytes_per_pixel size_mismatch Z.ltb Z.compare andb].
      rewrite EN. cbn [set_jpeg_frame source_frame]. now rewrite Ed. }
    rewrite E. split; [reflexivity | repeat split].
  - intros m EN Ed. exists (-1), []. rewrite Hfmt.
    split; [reflexivity|]. split; [reflexivity|].
    unfold convert. rewrite Hfmt, EN.
    cbn [set_jpeg_frame source_frame]. now rewrite Ed.
Qed.

(** ** The order of the input is the order of every output *)

Lemma convert_keeps_identity (this : VideoGenerator) (bpp : Z)
  (fr fr' : CameraFrame) (logged : list string) :
  convert this bpp fr = (logged, Some fr') ->
  key_of (frame_data fr') = key_of (frame_data fr).
Proof.
  intro Hc. unfold convert in Hc. cbn [key_of].
  destruct (format (frame_format fr)); cbn in Hc;
    repeat match type of Hc with
           | context [match ?x with _ => _ end] => destruct x
           end;
    try discriminate Hc; injection Hc as _ <-; cbn;
    try match goal with
        | |- context [handle_jpeg_stack ?g ?f ?i ?c] =>
            let S := fresh "S" in
            let F := fresh "F" in
            let B := fresh "B" in
            destruct (handle_jpeg_stack_fields g f i c)
              as (_ & S & F & B & _);
            rewrite S, F, B
        end;
    reflexivity.
Qed.

Lemma subseq_one {A : Type} (x : A) (l : list A) :
  l = [] \/ l = [x] -> subseq l [x].
Proof.
  intros [-> | ->]; [apply subseq_nil_l | apply subseq_refl].
Qed.

(** One frame: every output receives nothing or the converted frame,
    which has the key of the frame popped. *)
Lemma process_frame_ordered (fr : CameraFrame) (this : VideoGenerator) :
  exists ll ls ld lp : list QueueData,
    pushed_between this (process_frame fr this) ll ls ld lp
    /\ subseq (map key_of ll) [key_of (frame_data fr)]
    /\ subseq (map key_of ls) [key_of (frame_data fr)]
    /\ subseq (map key_of ld) [key_of (frame_data fr)]
    /\ subseq (map key_of lp) [key_of (frame_data fr)].
Proof.
  assert (Hdrop :
    forall g', same_outputs this g' ->
      exists ll ls ld lp : list QueueData,
        pushed_between this g' ll ls ld lp
        /\ subseq (map key_of ll) [key_of (frame_data fr)]
        /\ subseq (map key_of ls) [key_of (frame_data fr)]
        /\ subseq (map key_of ld) [key_of (frame_data fr)]
        /\ subseq (map key_of lp) [key_of (frame_data fr)]).
  { intros g' Hsame. exists [], [], [], [].
    split; [now apply pushed_between_nothing|].
    repeat split; apply subseq_nil_l. }
  unfold process_frame.
  destruct (bytes_per_pixel (format (frame_format fr))) as [bpp|];
    [|apply Hdrop; repeat split].
  destruct (size_mismatch fr bpp); [apply Hdrop; repeat split|].
  destruct (convert this bpp fr) as [logged [fr'|]] eqn:Hc;
    rewrite log_all; [|apply Hdrop; repeat split].
  apply convert_keeps_identity in Hc.
  exists [frame_data fr'],
    (if stacking_active_ this then [frame_data fr'] else []),
    (if debug_active_ this && stacking_active_ this
     then [frame_data fr'] else []),
    (if not_null (plate_solving_out_ this)
        && negb (stacking_in_process_ this)
     then [frame_data fr'] else []).
  split.
  - destruct this as [dq so lo dbg [ps|] [|] [|] [|] lg];
      cbn; unfold pushed_between, appended; cbn;
      rewrite ?app_nil_r; repeat split; try reflexivity;
      unfold appended; now rewrite app_nil_r.
  - rewrite <- Hc.
    repeat split; apply subseq_one;
      repeat match goal with
             | |- context [if ?b then _ else _] => destruct b
             end;
      cbn; auto.
Qed.

Lemma run_loop_ordered (msgs : list QueueData) :
  forall this : VideoGenerator,
  exists ll ls ld lp : list QueueData,
    pushed_between this (generator_of (run_loop msgs this)) ll ls ld lp
    /\ subseq (map key_of ll) (map key_of msgs)
    /\ subseq (map key_of ls) (map key_of msgs)
    /\ subseq (map key_of ld) (map key_of msgs)
    /\ subseq (map key_of lp) (map key_of msgs).
Proof.
  induction msgs as [|m rest IH]; intro this.
  - exists [], [], [], []. split;
      [apply pushed_between_nothing; repeat split|].
    repeat split; constructor.
  - destruct m as [|f|c|]; cbn [run_loop generator_of map].
    + exists [shutdown_data], [shutdown_data], [shutdown_data], [].
      split; [exact (proj1 (stop_routes
                              (set_data_queue (Queue.Build rest) this)))|].
      cbn. repeat split;
        try (apply subseq_keep; apply subseq_nil_l); apply subseq_nil_l.
    + destruct (process_frame_ordered f
                  (set_data_queue (Queue.Build rest) this))
        as (ll1 & ls1 & ld1 & lp1 & P1 & A1 & B1 & C1 & D1).
      destruct (IH (process_frame f (set_data_queue (Queue.Build rest) this)))
        as (ll2 & ls2 & ld2 & lp2 & P2 & A2 & B2 & C2 & D2).
      exists (ll1 ++ ll2)%list, (ls1 ++ ls2)%list, (ld1 ++ ld2)%list,
        (lp1 ++ lp2)%list.
      split; [eapply pushed_between_trans; eassumption|].
      rewrite !map_app.
      repeat split;
        match goal with
        | |- subseq _ (?k :: ?l) => apply (subseq_app (l1' := [k]) (l2' := l))
        end; assumption.
    + destruct (control_routes c (set_data_queue (Queue.Build rest) this))
        as (P1 & _).
      destruct (IH (control c (set_data_queue (Queue.Build rest) this)))
        as (ll2 & ls2 & ld2 & lp2 & P2 & A2 & B2 & C2 & D2).
      exists ([control_data c] ++ ll2)%list, ([control_data c] ++ ls2)%list,
        ([control_data c] ++ ld2)%list, ([] ++ lp2)%list.
      split; [eapply pushed_between_trans; eassumption|].
      cbn. repeat split; try (now apply subseq_keep). now apply subseq_skip.
    + destruct (IH (BOOSTER_ERROR "Invalid data for video generator"
                      (set_data_queue (Queue.Build rest) this)))
        as (ll2 & ls2 & ld2 & lp2 & P2 & A2 & B2 & C2 & D2).
      exists ll2, ls2, ld2, lp2. split; [exact P2|].
      repeat split; now apply subseq_skip.
Qed.

(** X25.  The order of the input is the order of every output: what
    the stage pushes to the live, the stacking, the debug and the plate
    solving output is, each, the input with some messages left out and
    nothing reordered, duplicated or invented; a frame counts as the
    same message after conversion, having kept its format descriptor,
    Bayer tag and source buffer.  So a control message queued behind a
    frame reaches every consumer behind that frame, and before every
    frame queued behind it. *)
Theorem outputs_keep_input_order
  (msgs : list QueueData) (this : VideoGenerator) :
  exists ll ls ld lp : list QueueData,
    pushed_between this (generator_of (run_loop msgs this)) ll ls ld lp
    /\ subseq (map key_of ll) (map key_of msgs)
    /\ subseq (map key_of ls) (map key_of msgs)
    /\ subseq (map key_of ld) (map key_of msgs)
    /\ subseq (map key_of lp) (map key_of msgs).
Proof.
  destruct (run_loop_ordered msgs this)
    as (ll & ls & ld & lp & P & A & B & C & D).
  exists ll, ls, ld, lp.
  split; [exact P|]. split; [exact A|]. split; [exact B|].
  split; [exact C | exact D].
Qed.

End MoreStageProperties.


(* ================================================================= *)
(** * Properties of the control requests *)
(* ================================================================= *)

Section ControlAppProperties.

Import Camera Video ControlApp.

Local Open Scope string_scope.

Context `{Externals}.

Lemma control_known (fresh : StackerControl) (operation : string)
  (app : StackerControlApp) (t : ctl_op) :
  operation_tag operation = Some t ->
  ControlApp.control fresh operation app
  = (Ok tt,
     mk_app (Queue.push (control_data (set_op t fresh)) (queue_ app))
       match t with
       | ctl_pause => "paused"
       | ctl_resume => "stacking"
       | ctl_cancel => "idle"
       | _ => status_ app
       end).
Proof.
  unfold operation_tag, ControlApp.control.
  destruct (operation =? "pause"); [now intros [= <-]|].
  destruct (operation =? "save"); [now intros [= <-]|].
  destruct (operation =? "resume"); [now intros [= <-]|].
  destruct (operation =? "cancel"); [now intros [= <-]|].
  discriminate.
Qed.

Lemma control_unknown (fresh : StackerControl) (operation : string)
  (app : StackerControlApp) :
  operation_tag operation = None ->
  ControlApp.control fresh operation app
  = (Throw ("Unknown operation " ++ operation), app).
Proof.
  unfold operation_tag, ControlApp.control.
  destruct (operation =? "pause"); [discriminate|].
  destruct (operation =? "save"); [discriminate|].
  destruct (operation =? "resume"); [discriminate|].
  destruct (operation =? "cancel"); [discriminate|].
  reflexivity.
Qed.

Lemma control_all_queue (fresh : StackerControl) (operations : list string) :
  forall app : StackerControlApp,
    Queue.data_ (queue_ (control_all fresh operations app))
    = (Queue.data_ (queue_ app) ++ requested fresh operations)%list.
Proof.
  induction operations as [|o rest IH]; intro app; cbn [control_all requested].
  - now rewrite app_nil_r.
  - rewrite IH. destruct (operation_tag o) as [t|] eqn:Et.
    + rewrite (control_known fresh o app Et). cbn.
      now rewrite <- app_assoc.
    + now rewrite (control_unknown fresh o app Et).
Qed.

Lemma control_all_app (fresh : StackerControl) (ops1 ops2 : list string) :
  forall app : StackerControlApp,
    control_all fresh (ops1 ++ ops2) app
    = control_all fresh ops2 (control_all fresh ops1 app).
Proof.
  induction ops1 as [|o ops1 IH]; intro app; [reflexivity|].
  rewrite <- app_comm_cons. cbn [control_all]. apply IH.
Qed.

(** X22.  The handler turns a sequence of requests into messages in
    request order: after the requests the queue holds, behind what it
    held, one control message for every request naming "pause", "save",
    "resume" or "cancel", in the order of the requests, each with the
    operation named and otherwise as [new StackerControl()] makes it.
    Requests naming anything else throw "Unknown operation" and leave
    queue and status as they were, so they do not disturb the order.
    No message pushed is an [init] or an [update]. *)
Theorem control_requests_in_order
  (fresh : StackerControl) (operations : list string)
  (app : StackerControlApp) :
  Queue.data_ (queue_ (control_all fresh operations app))
  = (Queue.data_ (queue_ app) ++ requested fresh operations)%list
  /\ (forall operation : string,
         operation_tag operation = None ->
         ControlApp.control fresh operation app
         = (Throw ("Unknown operation " ++ operation), app))
  /\ Forall (fun m => exists t : ctl_op,
                 m = control_data (set_op t fresh)
                 /\ t <> ctl_init /\ t <> ctl_update)
       (requested fresh operations).
Proof.
  split; [apply control_all_queue|]. split.
  - intros operation. apply control_unknown.
  - induction operations as [|o rest IH]; cbn [requested]; [constructor|].
    destruct (operation_tag o) as [t|] eqn:Et; [|exact IH].
    constructor; [|exact IH]. exists t. split; [reflexivity|].
    unfold operation_tag in Et.
    destruct (o =? "pause"); [injection Et as <-; split; discriminate|].
    destruct (o =? "save"); [injection Et as <-; split; discriminate|].
    destruct (o =? "resume"); [injection Et as <-; split; discriminate|].
    destruct (o =? "cancel"); [injection Et as <-; split; discriminate|].
    discriminate.
Qed.

(** X23.  [status_] follows the last request that named "pause",
    "resume" or "cancel": it is then "paused", "stacking" or "idle".
    A "save" request pushes its message and leaves [status_] as it
    was, and so do requests naming an unknown operation. *)
Theorem status_follows_requests
  (fresh : StackerControl) (before after : list string) (operation : string)
  (t : ctl_op) (app : StackerControlApp) :
  operation_tag operation = Some t ->
  forallb (fun o => match operation_tag o with
                    | Some ctl_save | None => true
                    | Some _ => false
                    end) after = true ->
  status_ (control_all fresh (before ++ operation :: after) app)
  = match t with
    | ctl_pause => "paused"
    | ctl_resume => "stacking"
    | ctl_cancel => "idle"
    | _ => status_ (control_all fresh before app)
    end.
Proof.
  intros Et Hafter. rewrite control_all_app. cbn [control_all].
  rewrite (control_known fresh operation _ Et). cbn [snd].
  generalize (control_all fresh before app). intro app'.
  set (app'' := mk_app _ _).
  assert (Hs : status_ app''
               = match t with
                 | ctl_pause => "paused"
                 | ctl_resume => "stacking"
                 | ctl_cancel => "idle"
                 | _ => status_ app'
                 end) by reflexivity.
  rewrite <- Hs. clearbody app''. clear Hs.
  revert app''. induction after as [|o after IH]; intro app''; [reflexivity|].
  cbn in Hafter. apply andb_true_iff in Hafter. destruct Hafter as [Ho Hafter].
  cbn [control_all]. rewrite IH by assumption.
  destruct (operation_tag o) as [u|] eqn:Eu.
  - rewrite (control_known fresh o app'' Eu).
    destruct u; (discriminate || reflexivity).
  - now rewrite (control_unknown fresh o app'' Eu).
Qed.

(** ** Requests and the stage *)

Lemma requested_app (fresh : StackerControl) (ops1 ops2 : list string) :
  requested fresh (ops1 ++ ops2)
  = (requested fresh ops1 ++ requested fresh ops2)%list.
Proof.
  induction ops1 as [|o ops1 IH]; [reflexivity|].
  rewrite <- app_comm_cons. cbn [requested].
  destruct (operation_tag o); rewrite IH; reflexivity.
Qed.

Lemma requested_unknown (fresh : StackerControl) (operations : list string) :
  forallb (fun o => match operation_tag o with
                    | Some _ => false
                    | None => true
                    end) operations = true ->
  requested fresh operations = [].
Proof.
  induction operations as [|o rest IH]; intro Hall; [reflexivity|].
  cbn in Hall. cbn [requested].
  destruct (operation_tag o); [discriminate | now apply IH].
Qed.

Lemma requested_controls (fresh : StackerControl) (operations : list string) :
  until_shutdown (requested fresh operations) = requested fresh operations
  /\ forallb (fun c => negb (is_init c))
       (controls (requested fresh operations)) = true.
Proof.
  induction operations as [|o rest (IH1 & IH2)]; [now split|].
  cbn [requested]. destruct (operation_tag o) as [t|] eqn:Et; [|now split].
  cbn [until_shutdown controls forallb]. rewrite IH1, IH2. split;
    [reflexivity|].
  unfold operation_tag in Et.
  destruct (o =? "pause"); [now injection Et as <-|].
  destruct (o =? "save"); [now injection Et as <-|].
  destruct (o =? "resume"); [now injection Et as <-|].
  destruct (o =? "cancel"); [now injection Et as <-|].
  discriminate.
Qed.

(** X24.  What the stage makes of the messages of a sequence of
    requests: [debug_active_] is never changed by them, and the other
    two flags are set by the last request that named an operation:
    not active but in process after "pause", active and in process
    after "resume", neither after "save" or "cancel". *)
Theorem requests_drive_stage
  (fresh : StackerControl) (before after : list string) (operation : string)
  (t : ctl_op) (this : VideoGenerator) :
  operation_tag operation = Some t ->
  forallb (fun o => match operation_tag o with
                    | Some _ => false
                    | None => true
                    end) after = true ->
  let g :=
    generator_of
      (run_loop (requested fresh (before ++ operation :: after)) this) in
  debug_active_ g = debug_active_ this
  /\ (stacking_active_ g, stacking_in_process_ g)
     = match t with
       | ctl_pause => (false, true)
       | ctl_resume => (true, true)
       | _ => (false, false)
       end.
Proof.
  intros Et Hafter g.
  assert (Hflags : flags g
                   = session_after
                       (controls
                          (requested fresh (before ++ operation :: after)))
                       (flags this)).
  { unfold g. rewrite run_loop_flags.
    now rewrite (proj1 (requested_controls fresh _)). }
  split.
  - change (snd (flags g) = snd (flags this)). rewrite Hflags.
    apply session_after_debug. apply requested_controls.
  - change (fst (flags g)
            = match t with
              | ctl_pause => (false, true)
              | ctl_resume => (true, true)
              | _ => (false, false)
              end).
    rewrite Hflags.
    rewrite requested_app. cbn [requested]. rewrite Et.
    rewrite (requested_unknown fresh after Hafter).
    rewrite controls_app. cbn [controls]. unfold session_after.
    rewrite fold_left_app. cbn [fold_left op set_op].
    destruct (fold_left _ (controls (requested fresh before)) (flags this))
      as [[a p] d].
    unfold operation_tag in Et.
    destruct (operation =? "pause"); [now injection Et as <-|].
    destruct (operation =? "save"); [now injection Et as <-|].
    destruct (operation =? "resume"); [now injection Et as <-|].
    destruct (operation =? "cancel"); [now injection Et as <-|].
    discriminate.
Qed.

End ControlAppProperties.


(* ================================================================= *)
(** * The further properties on the concrete instances *)
(* ================================================================= *)

Section MoreExamples.

Import Camera Video ControlApp Sample.

Local Open Scope string_scope.
Local Open Scope Z_scope.

Lemma session_state_after_run_witness :
  flags (generator_of (run_loop scenario (a_generator true)))
  = (false, false, true)
  /\ flags (generator_of (run_loop scenario (a_generator true)))
     = flags (generator_of
                (run_loop [control_data init; control_data pause;
                           other_data; control_data resume;
                           control_data save; shutdown_data;
                           control_data init]
                   (a_generator true))).
Proof.
  destruct (@session_state_after_run externals) as [Hfold Hsame].
  split.
  - rewrite Hfold. reflexivity.
  - apply Hsame. reflexivity.
Defined.

Lemma debug_flag_is_last_init_witness :
  debug_active_ (generator_of
                   (run_loop [frame_data F1; control_data pause]
                      (a_generator true)))
  = false
  /\ debug_active_ (generator_of (run_loop scenario (a_generator true)))
     = true.
Proof.
  split.
  - apply (proj1 (@debug_flag_is_last_init externals
                    [frame_data F1; control_data pause] (a_generator true))).
    reflexivity.
  - apply (proj2 (@debug_flag_is_last_init externals scenario
                    (a_generator true))
             [] [pause; resume; save] init);
      reflexivity.
Defined.

Lemma no_plate_solving_during_session_witness :
  plate_solving_out_
    (generator_of
       (run_loop [frame_data F1; control_data pause; frame_data F2]
          in_session))
  = Some Queue.empty
  /\ stacking_in_process_
       (generator_of
          (run_loop [frame_data F1; control_data pause; frame_data F2]
             in_session))
     = true.
Proof.
  apply (@no_plate_solving_during_session externals
           [frame_data F1; control_data pause; frame_data F2] in_session);
    reflexivity.
Defined.

Lemma no_frames_stacked_while_inactive_witness :
  exists ls ld : list (QueueData (H := externals)),
    appended (stack_out_ (a_generator true))
      (stack_out_
         (generator_of
            (run_loop [frame_data F1; control_data pause; frame_data F2;
                       shutdown_data] (a_generator true)))) ls
    /\ appended (debug_out_ (a_generator true))
         (debug_out_
            (generator_of
               (run_loop [frame_data F1; control_data pause; frame_data F2;
                          shutdown_data] (a_generator true)))) ld
    /\ forallb (fun m => negb (is_frame m)) ls = true
    /\ forallb (fun m => negb (is_frame m)) ld = true.
Proof.
  apply (@no_frames_stacked_while_inactive externals
           [frame_data F1; control_data pause; frame_data F2; shutdown_data]
           (a_generator true));
    reflexivity.
Defined.

Lemma forwarded_frame_shape_witness :
  jpeg_frame F1' <> None
  /\ source_frame F1' = source_frame F1
  /\ frame_format F1' = frame_format F1
  /\ bayer F1' = bayer F1
  /\ frame_dr F1' = 255.
Proof.
  assert (Hp : passes g1 F1 F1')
    by (exists 1, []; repeat split; reflexivity).
  destruct (@forwarded_frame_shape externals g1 F1 F1' Hp)
    as (J & S & F & B & D).
  split; [exact J|]. split; [exact S|]. split; [exact F|].
  split; [exact B|]. apply D. discriminate.
Defined.

Lemma working_matrix_on_demand_witness :
  frame F2' = frame F2
  /\ frame F1' = clone (Externals := externals) (raw F1').
Proof.
  assert (Hp1 : passes g1 F1 F1')
    by (exists 1, []; repeat split; reflexivity).
  assert (Hp2 : passes g3 F2 F2')
    by (exists 3, []; repeat split; reflexivity).
  split.
  - apply (proj1 (@working_matrix_on_demand externals g3 F2 F2' Hp2));
      reflexivity.
  - apply (proj2 (@working_matrix_on_demand externals g1 F1 F1' Hp1)).
    reflexivity.
Defined.

Lemma mjpeg_decoded_on_demand_witness :
  passes (a_generator false) jpeg
    (set_jpeg_frame (Some (source_frame jpeg)) jpeg)
  /\ process_frame jpeg_undecoded stacking_no_decoder
     = BOOSTER_ERROR "Failed to extract jpeg" stacking_no_decoder
  /\ passes (a_generator true) jpeg
       (set_raw (H := externals) (bytes 5)
          (set_frame_dr 255
             (set_frame (H := externals) (bytes 5)
                (set_jpeg_frame (Some (source_frame jpeg)) jpeg)))).
Proof.
  destruct (@mjpeg_decoded_on_demand externals (a_generator false) jpeg
              eq_refl) as (Hidle & _ & _).
  destruct (@mjpeg_decoded_on_demand no_decoder stacking_no_decoder
              jpeg_undecoded eq_refl) as (_ & Hfail & _).
  destruct (@mjpeg_decoded_on_demand externals (a_generator true) jpeg
              eq_refl) as (_ & _ & Hdecoded).
  split; [apply Hidle; reflexivity|].
  split; [apply Hfail; reflexivity|].
  apply Hdecoded; reflexivity.
Defined.

Lemma control_requests_in_order_witness :
  Queue.data_ (queue_ (control_all fresh ["pause"; "start"; "save"] an_app))
  = [control_data (set_op ctl_pause fresh);
     control_data (set_op ctl_save fresh)]
  /\ ControlApp.control fresh "start" an_app
     = (Throw "Unknown operation start", an_app).
Proof.
  destruct (@control_requests_in_order externals fresh
              ["pause"; "start"; "save"] an_app) as (Hq & Hunknown & _).
  split; [exact Hq|].
  apply Hunknown. reflexivity.
Defined.

Lemma status_follows_requests_witness :
  status_ (control_all fresh ["resume"; "pause"; "save"; "start"] an_app)
  = "paused"
  /\ status_ (control_all fresh ["resume"; "save"] an_app) = "stacking".
Proof.
  split.
  - apply (@status_follows_requests externals fresh ["resume"]
             ["save"; "start"] "pause" ctl_pause an_app);
      reflexivity.
  - apply (@status_follows_requests externals fresh ["resume"] []
             "save" ctl_save an_app);
      reflexivity.
Defined.

Lemma requests_drive_stage_witness :
  debug_active_
    (generator_of
       (run_loop (requested fresh ["resume"; "save"; "start"]) in_session))
  = true
  /\ (stacking_active_
        (generator_of
           (run_loop (requested fresh ["resume"; "save"; "start"])
              in_session)),
      stacking_in_process_
        (generator_of
           (run_loop (requested fresh ["resume"; "save"; "start"])
              in_session)))
     = (false, false).
Proof.
  apply (@requests_drive_stage externals fresh ["resume"] ["start"] "save"
           ctl_save in_session);
    reflexivity.
Defined.

End MoreExamples.
